(** * FileChangeHandler: the content overlay bridge of the Dart analysis server

    A shallow embedding of [src/src/analysis/file_change_handler.ts].
    The handler receives editor events (open / change / close of a text
    document) and turns them into [analysis.updateContent] requests whose
    parameter is a files map from path to overlay.  The only mutable state
    of the handler is [filesWarnedAbout], a set of paths.  The editor-side
    collaborators ([util.isAnalyzable], [fsPath], [util.isWithinWorkspace],
    [config.warnWhenEditingFilesOutsideWorkspace]) are read at each event and
    gathered into an environment record. *)

From stdpp Require Import base gmap strings list sorting.
From Stdlib Require Import Lia ZArith Strings.String Strings.Ascii.

Open Scope string_scope.

(** ** Protocol types ([analysis_server_types]) *)

(** [as.SourceEdit] *)
Record SourceEdit := mkSourceEdit {
  id : string;
  length : nat;
  offset : nat;
  replacement : string;
}.

(** [as.AddContentOverlay], [as.ChangeContentOverlay] and
    [as.RemoveContentOverlay], told apart by their [type] field. *)
Inductive ContentOverlay :=
| AddContentOverlay (content : string)
| ChangeContentOverlay (edits : list SourceEdit)
| RemoveContentOverlay.

(** The parameter of [analysisUpdateContent]: [{ files }]. *)
Record AnalysisUpdateContentRequest := mkUpdateContent {
  files : gmap string ContentOverlay;
}.

(** ** Editor types ([vscode]) *)

Definition Uri := string.

(** The fields of [vs.TextDocument] the handler reads. *)
Record TextDocument := mkTextDocument {
  uri : Uri;
  languageId : string;
  text : string;          (* what [document.getText()] returns *)
}.

Definition getText (d : TextDocument) : string := text d.

(** [vs.TextDocumentContentChangeEvent] (the [range] field is not read). *)
Record TextDocumentContentChangeEvent := mkChange {
  rangeOffset : nat;
  rangeLength : nat;
  change_text : string;   (* the [text] field *)
}.

(** [vs.TextDocumentChangeEvent]: the document after the change and the
    change records. *)
Record TextDocumentChangeEvent := mkChangeEvent {
  document : TextDocument;
  contentChanges : list TextDocumentContentChangeEvent;
}.

(** The three editor events the handler subscribes to. *)
Inductive EditorEvent :=
| DidOpen (td : TextDocument)
| DidChange (e : TextDocumentChangeEvent)
| DidClose (td : TextDocument).

(** ** Environment: the collaborators the handler reads *)
Record Env := mkEnv {
  isAnalyzable : TextDocument -> bool;            (* [util.isAnalyzable] *)
  fsPath : Uri -> string;                         (* [util.fsPath] *)
  isWithinWorkspace : string -> bool;             (* [util.isWithinWorkspace] *)
  warnWhenEditingFilesOutsideWorkspace : bool;    (* [config....] *)
}.

(** ** Observable effects of the handler *)
Inductive Effect :=
| ShowWarningMessage (msg : string)                         (* [vs.window.showWarningMessage] *)
| AnalysisUpdateContent (req : AnalysisUpdateContentRequest). (* [analyzer.analysisUpdateContent] *)

(** ** The handler *)

(** [private readonly filesWarnedAbout = new Set<string>()] *)
Record FileChangeHandler := mkHandler {
  filesWarnedAbout : gset string;
}.

Definition newHandler : FileChangeHandler := mkHandler ∅.

Definition warningMessage (filePath : string) : string :=
  "You are modifying a file outside of your current workspace: " ++ filePath.

(** [onDidOpenTextDocument] *)
Definition onDidOpenTextDocument (env : Env) (h : FileChangeHandler)
    (document : TextDocument) : FileChangeHandler * list Effect :=
  if negb (isAnalyzable env document) then (h, [])
  else
    let files : gmap string ContentOverlay :=
      <[fsPath env (uri document) := AddContentOverlay (getText document)]> ∅ in
    (h, [AnalysisUpdateContent (mkUpdateContent files)]).

(** [convertChange] *)
Definition convertChange (document : TextDocument)
    (change : TextDocumentContentChangeEvent) : SourceEdit :=
  {| id := "";
     length := rangeLength change;
     offset := rangeOffset change;
     replacement := change_text change |}.

(** [onDidChangeTextDocument] *)
Definition onDidChangeTextDocument (env : Env) (h : FileChangeHandler)
    (e : TextDocumentChangeEvent) : FileChangeHandler * list Effect :=
  if negb (isAnalyzable env (document e)) then (h, [])
  else if Nat.eqb (List.length (contentChanges e)) 0 then (h, [])
  else
    let filePath := fsPath env (uri (document e)) in
    let '(h', warned) :=
      if warnWhenEditingFilesOutsideWorkspace env
         && negb (bool_decide (filePath ∈ filesWarnedAbout h))
         && negb (isWithinWorkspace env filePath)
      then (mkHandler ({[filePath]} ∪ filesWarnedAbout h),
            [ShowWarningMessage (warningMessage filePath)])
      else (h, []) in
    let files : gmap string ContentOverlay :=
      <[filePath := ChangeContentOverlay
                      (map (convertChange (document e)) (contentChanges e))]> ∅ in
    (h', app warned [AnalysisUpdateContent (mkUpdateContent files)]).

(** [onDidCloseTextDocument] *)
Definition onDidCloseTextDocument (env : Env) (h : FileChangeHandler)
    (document : TextDocument) : FileChangeHandler * list Effect :=
  if negb (isAnalyzable env document) then (h, [])
  else
    let files : gmap string ContentOverlay :=
      <[fsPath env (uri document) := RemoveContentOverlay]> ∅ in
    (h, [AnalysisUpdateContent (mkUpdateContent files)]).

(** Dispatch of one editor event to its listener. *)
Definition handle (env : Env) (h : FileChangeHandler) (ev : EditorEvent)
    : FileChangeHandler * list Effect :=
  match ev with
  | DidOpen td => onDidOpenTextDocument env h td
  | DidChange e => onDidChangeTextDocument env h e
  | DidClose td => onDidCloseTextDocument env h td
  end.

(** A session: events in order, each with the environment in force when it
    fires (the configuration may be reloaded between events). *)
Fixpoint run (h : FileChangeHandler) (evs : list (Env * EditorEvent))
    : FileChangeHandler * list Effect :=
  match evs with
  | [] => (h, [])
  | (env, ev) :: rest =>
      let '(h1, out1) := handle env h ev in
      let '(h2, out2) := run h1 rest in
      (h2, app out1 out2)
  end.

(** The overlay operations of a list of effects, in emission order. *)
Fixpoint overlays (out : list Effect) : list (gmap string ContentOverlay) :=
  match out with
  | [] => []
  | AnalysisUpdateContent r :: rest => files r :: overlays rest
  | ShowWarningMessage _ :: rest => overlays rest
  end.

(** ** Text edits

    One edit [(offset, length, replacement)] replaces [length] characters at
    [offset] by [replacement].  The edits of one batch all refer to the
    pre-batch content: they are applied from the highest offset down, so that
    no edit moves the positions of the edits still to be applied. *)

Definition Edit : Type := nat * nat * string.

Definition apply_edit (s : string) (e : Edit) : string :=
  let '(off, len, repl) := e in
  substring 0 off s ++ repl ++
  substring (off + len) (String.length s - (off + len)) s.

Definition offset_ge (a b : Edit) : Prop := b.1.1 <= a.1.1.

#[local] Instance offset_ge_dec : RelDecision offset_ge.
Proof. intros a b. unfold offset_ge. apply _. Defined.

Definition apply_batch (s : string) (es : list Edit) : string :=
  fold_left apply_edit (merge_sort offset_ge es) s.

(** The edit a change record describes in the editor. *)
Definition edit_of_change (c : TextDocumentContentChangeEvent) : Edit :=
  (rangeOffset c, rangeLength c, change_text c).

(** The edit a protocol [SourceEdit] describes for the server. *)
Definition edit_of_source (e : SourceEdit) : Edit :=
  (offset e, length e, replacement e).

(** The editor's side of a sequence of change events on one document that
    starts with text [t]: the document each event carries holds the text
    obtained by applying the event's change records to the previous text. *)
Fixpoint editor_consistent (t : string) (evs : list TextDocumentChangeEvent) : Prop :=
  match evs with
  | [] => True
  | e :: rest =>
      getText (document e) = apply_batch t (map edit_of_change (contentChanges e))
      /\ editor_consistent (getText (document e)) rest
  end.

(** The text of the document after the last event. *)
Fixpoint final_text (t : string) (evs : list TextDocumentChangeEvent) : string :=
  match evs with
  | [] => t
  | e :: rest => final_text (getText (document e)) rest
  end.

(** The server's side: replay the overlays sent for path [p], one request
    after the other, on the text [t]. *)
Definition replay_overlay (p : string) (t : string) (m : gmap string ContentOverlay) : string :=
  match m !! p with
  | Some (AddContentOverlay c) => c
  | Some (ChangeContentOverlay es) => apply_batch t (map edit_of_source es)
  | Some RemoveContentOverlay | None => t
  end.

Definition replay (p : string) (t : string) (ms : list (gmap string ContentOverlay)) : string :=
  fold_left (replay_overlay p) ms t.

Definition docD (t : string) : TextDocument := mkTextDocument "file:///D.dart" "dart" t.
Definition envAll : Env := mkEnv (fun _ => true) (fun u => u) (fun _ => false) true.

(** The document an editor event is about. *)
Definition event_document (ev : EditorEvent) : TextDocument :=
  match ev with
  | DidOpen td => td
  | DidChange e => document e
  | DidClose td => td
  end.

(** Number of out-of-workspace warnings shown for path [p]. *)
Definition count_warnings (p : string) (out : list Effect) : nat :=
  List.length (List.filter (fun ef =>
    match ef with
    | ShowWarningMessage m => bool_decide (m = warningMessage p)
    | AnalysisUpdateContent _ => false
    end) out).

Definition envNone : Env := mkEnv (fun _ => false) (fun u => u) (fun _ => false) true.

Definition envOutside : Env := mkEnv (fun _ => true) (fun u => u) (fun _ => false) true.

(** The change events of a session on one document, as editor events. *)
Definition change_events (evs : list (Env * TextDocumentChangeEvent)) : list (Env * EditorEvent) :=
  map (fun ee => (ee.1, DidChange ee.2)) evs.

(** ** Analysis-round tracking *)

(** Modelled from the spec: the analyzer's analysis-completion tracking
    behind [extApi.nextAnalysis] (awaitNextRound), whose source
    ([src/analysis/analyzer.ts]) is not among the files here; only its
    caller [waitForNextAnalysis] in the test helpers is.  Following the spec
    (4.5): an "analysis started" event makes the tracker busy, an "analysis
    finished" event makes it idle and resolves the pending tokens, and
    [nextAnalysis] returns a token that resolves only after a full
    start-then-finish cycle that begins after the call.  A token is a
    number; [waiters] holds each pending token with whether a start has been
    seen since it was handed out; [resolved] lists the settled tokens. *)
Record AnalysisTracker := mkTracker {
  busy : bool;
  waiters : list (nat * bool);
  resolved : list nat;
  next_token : nat;
}.

Definition initialTracker : AnalysisTracker := mkTracker false [] [] 0.

Inductive ServerNotification :=
| AnalysisStarted
| AnalysisFinished.

(** Operations on the tracker: a caller asking for the next round, or a
    server notification. *)
Inductive TrackerOp :=
| CallNextAnalysis
| Notify (n : ServerNotification).

(** Modelled from the spec: [nextAnalysis] hands out a fresh pending token. *)
Definition nextAnalysis (t : AnalysisTracker) : AnalysisTracker * nat :=
  (mkTracker (busy t) (app (waiters t) [(next_token t, false)]) (resolved t)
             (S (next_token t)),
   next_token t).

(** Modelled from the spec: the effect of a server notification. *)
Definition onNotification (t : AnalysisTracker) (n : ServerNotification) : AnalysisTracker :=
  match n with
  | AnalysisStarted =>
      mkTracker true (map (fun w => (w.1, true)) (waiters t)) (resolved t) (next_token t)
  | AnalysisFinished =>
      mkTracker false
        (List.filter (fun w => negb w.2) (waiters t))
        (app (resolved t) (map fst (List.filter (fun w => w.2) (waiters t))))
        (next_token t)
  end.

Definition tracker_step (t : AnalysisTracker) (op : TrackerOp) : AnalysisTracker :=
  match op with
  | CallNextAnalysis => (nextAnalysis t).1
  | Notify n => onNotification t n
  end.

Definition tracker_run (t : AnalysisTracker) (ops : list TrackerOp) : AnalysisTracker :=
  fold_left tracker_step ops t.

Definition tokens_fresh (t : AnalysisTracker) : Prop :=
  (forall n, In n (resolved t) -> n < next_token t) /\
  (forall w, In w (waiters t) -> w.1 < next_token t).

(** ** Construction of the handler *)

(** [constructor]: after registering its listeners, the handler runs
    [onDidOpenTextDocument] on every document already open in the editor
    ([vs.workspace.textDocuments.forEach]), in order. *)
Definition new_FileChangeHandler (env : Env) (textDocuments : list TextDocument)
    : FileChangeHandler * list Effect :=
  run newHandler (map (fun td => (env, DidOpen td)) textDocuments).

(** Number of warnings, for any path, in a list of effects. *)
Definition count_all_warnings (out : list Effect) : nat :=
  List.length (List.filter (fun ef =>
    match ef with
    | ShowWarningMessage _ => true
    | AnalysisUpdateContent _ => false
    end) out).

(** ** Test helpers ([test/helpers.ts])

    Strings are sequences of 8-bit characters.  [filenameSafe] keeps only
    ASCII letters and digits, so its lowercasing step only ever sees ASCII
    characters. *)

Definition ascii_between (lo hi c : ascii) : bool :=
  Nat.leb (nat_of_ascii lo) (nat_of_ascii c) && Nat.leb (nat_of_ascii c) (nat_of_ascii hi).

(** Membership in the class [[a-z0-9]] under the [i] flag. *)
Definition in_a_z0_9_i (c : ascii) : bool :=
  ascii_between "a" "z" c || ascii_between "A" "Z" c || ascii_between "0" "9" c.

(** [s.replace(/[^a-z0-9]+/gi, "_")]: every maximal run of characters
    outside the class becomes one ["_"]; [in_run] says whether the previous
    character was already part of a replaced run. *)
Fixpoint replace_nonalnum_runs (in_run : bool) (s : string) : string :=
  match s with
  | EmptyString => EmptyString
  | String c rest =>
      if in_a_z0_9_i c then String c (replace_nonalnum_runs false rest)
      else if in_run then replace_nonalnum_runs true rest
      else String "_" (replace_nonalnum_runs true rest)
  end.

(** [toLowerCase] on ASCII characters. *)
Definition toLowerCase_char (c : ascii) : ascii :=
  if ascii_between "A" "Z" c then ascii_of_nat (nat_of_ascii c + 32) else c.

Fixpoint toLowerCase (s : string) : string :=
  match s with
  | EmptyString => EmptyString
  | String c rest => String (toLowerCase_char c) (toLowerCase rest)
  end.

(** [filenameSafe] *)
Definition filenameSafe (input : string) : string :=
  toLowerCase (replace_nonalnum_runs false input).

Fixpoint all_chars (P : ascii -> bool) (s : string) : bool :=
  match s with
  | EmptyString => true
  | String c rest => P c && all_chars P rest
  end.

Definition filename_char (c : ascii) : bool :=
  ascii_between "a" "z" c || ascii_between "0" "9" c || Ascii.eqb c "_".

Definition starts_with_underscore (s : string) : bool :=
  match s with
  | EmptyString => false
  | String c _ => Ascii.eqb c "_"
  end.

Fixpoint no_double_underscore (s : string) : bool :=
  match s with
  | EmptyString => true
  | String c rest =>
      negb (Ascii.eqb c "_" && starts_with_underscore rest) && no_double_underscore rest
  end.

(** ** Polling helpers [waitFor] and [tryFor]

    Both run the loop
    [while (timeRemaining > 0) { <try the action; return on success>;
                                 await 20ms; timeRemaining -= 20; }]
    starting from [timeRemaining = milliseconds].  The action is observed
    through the result of its [i]-th call ([ok i]).  The loop is given fuel
    [1 + milliseconds]; each round consumes 20 of the remaining time, so
    the fuel never runs out (see [poll_loop_all_fail] and
    [poll_loop_first_success]).  The result is [Some (succeeded, calls)]. *)
Fixpoint poll_loop (fuel : nat) (ok : nat -> bool) (calls : nat) (timeRemaining : Z)
    : option (bool * nat) :=
  match fuel with
  | O => None
  | S fuel' =>
      if Z.ltb 0 timeRemaining then
        if ok calls then Some (true, S calls)
        else poll_loop fuel' ok (S calls) (timeRemaining - 20)
      else Some (false, calls)
  end.

Inductive Outcome :=
| Completed
| Threw (err : string).

(** The error of [waitFor]: the message is appended when it is truthy
    (neither missing nor empty). *)
Definition waitFor_error (message : option string) : string :=
  "Action didn't return true within specified timeout" ++
  match message with
  | Some m => if String.eqb m "" then "" else " (" ++ m ++ ")"
  | None => ""
  end.

(** [waitFor(action, message?, milliseconds = 2000, throwOnFailure = true)]:
    the outcome and the number of calls of [action]. *)
Definition waitFor (action : nat -> bool) (message : option string)
    (milliseconds : Z) (throwOnFailure : bool) : Outcome * nat :=
  match poll_loop (S (Z.to_nat milliseconds)) action 0 milliseconds with
  | Some (true, n) => (Completed, n)
  | Some (false, n) =>
      (if throwOnFailure then Threw (waitFor_error message) else Completed, n)
  | None => (Completed, 0)
  end.

(** [tryFor(action, milliseconds = 2000)]: the [i]-th call of [action]
    returns normally ([None]) or throws ([Some err]); errors inside the loop
    are swallowed, and after the loop the action is run once more with its
    error propagated. *)
Definition tryFor (action : nat -> option string) (milliseconds : Z) : Outcome * nat :=
  let ok := fun i => match action i with None => true | Some _ => false end in
  match poll_loop (S (Z.to_nat milliseconds)) ok 0 milliseconds with
  | Some (true, n) => (Completed, n)
  | Some (false, n) =>
      (match action n with None => Completed | Some e => Threw e end, S n)
  | None => (Completed, 0)
  end.

(** The number of rounds of the loop for a given time budget:
    [ceil(milliseconds / 20)], and none for a budget of zero or less. *)
Definition polls (milliseconds : Z) : nat := Z.to_nat ((milliseconds + 19) / 20).

(** ** Deferred clean-up of the test helpers

    [defer] and [deferUntilLast] push callbacks on two lists; the
    [afterEach] hook "run deferred functions" calls every callback of
    [_.concat(deferredItems, deferredToLastItems)] with the test's state,
    catching what each throws, keeps [firstError = firstError || e], empties
    both lists and finally throws [firstError] if it is truthy. *)

(** A value thrown by a callback: an error object (truthy) or a falsy
    value such as [undefined], [null], [""] or [0]. *)
Inductive JsThrown :=
| ErrorObject (message : string)
| FalsyValue.

Definition truthy (v : option JsThrown) : bool :=
  match v with
  | Some (ErrorObject _) => true
  | Some FalsyValue | None => false
  end.

Inductive TestState := Passed | Failed.

(** A deferred callback: its name (for the trace of calls) and what it
    does when called with the test's state ([None]: returns normally). *)
Record DeferredCallback := mkCallback {
  cb_name : string;
  cb_run : TestState -> option JsThrown;
}.

Record DeferredLists := mkDeferred {
  deferredItems : list DeferredCallback;
  deferredToLastItems : list DeferredCallback;
}.

Definition noDeferred : DeferredLists := mkDeferred [] [].

(** [defer(callback)] *)
Definition defer (st : DeferredLists) (callback : DeferredCallback) : DeferredLists :=
  mkDeferred (app (deferredItems st) [callback]) (deferredToLastItems st).

(** [deferUntilLast(callback)] *)
Definition deferUntilLast (st : DeferredLists) (callback : DeferredCallback) : DeferredLists :=
  mkDeferred (deferredItems st) (app (deferredToLastItems st) [callback]).

Inductive DeferOp :=
| OpDefer (cb : DeferredCallback)
| OpDeferUntilLast (cb : DeferredCallback).

Definition apply_defer_op (st : DeferredLists) (op : DeferOp) : DeferredLists :=
  match op with
  | OpDefer cb => defer st cb
  | OpDeferUntilLast cb => deferUntilLast st cb
  end.

(** The [for ... of] loop: the names of the callbacks called, in order,
    and the final [firstError]. *)
Fixpoint run_deferred_loop (ds : list DeferredCallback) (state : TestState)
    (firstError : option JsThrown) : list string * option JsThrown :=
  match ds with
  | [] => ([], firstError)
  | d :: rest =>
      let firstError' :=
        match cb_run d state with
        | None => firstError
        | Some e => if truthy firstError then firstError else Some e
        end in
      let '(called, fe) := run_deferred_loop rest state firstError' in
      (cb_name d :: called, fe)
  end.

(** The [afterEach] hook: the lists afterwards, the callbacks called, and
    the value it throws, if any. *)
Definition run_deferred_functions (st : DeferredLists) (state : TestState)
    : DeferredLists * list string * option JsThrown :=
  let '(called, firstError) :=
    run_deferred_loop (app (deferredItems st) (deferredToLastItems st)) state None in
  (noDeferred, called, if truthy firstError then firstError else None).

(** The first error object thrown by a list of callbacks, in call order. *)
Fixpoint first_error_object (ds : list DeferredCallback) (state : TestState) : option string :=
  match ds with
  | [] => None
  | d :: rest =>
      match cb_run d state with
      | Some (ErrorObject m) => Some m
      | _ => first_error_object rest state
      end
  end.

(** ** [positionOf]

    [positionOf(searchText)] finds the caret ["^"] in [searchText], looks
    for [searchText] without its caret (and with each ["\n"] replaced by the
    document's end-of-line sequence) in the document's text, and returns
    the position at [matchedTextIndex + caretOffset].  The result here is
    that offset ([inr]), or the message of the failed assertion ([inl]);
    the final conversion [doc.positionAt] belongs to the editor. *)

(** [s.indexOf(p)], counting from [i]; [None] for -1. *)
Fixpoint indexOf_from (i : nat) (s p : string) : option nat :=
  if String.prefix p s then Some i
  else match s with
       | EmptyString => None
       | String _ rest => indexOf_from (S i) rest p
       end.

Definition indexOf (s p : string) : option nat := indexOf_from 0 s p.

(** [s.replace("^", "")]: the first caret is removed. *)
Fixpoint remove_first_caret (s : string) : string :=
  match s with
  | EmptyString => EmptyString
  | String c rest => if Ascii.eqb c "^" then rest else String c (remove_first_caret rest)
  end.

(** [s.replace(/\n/g, eol)] *)
Fixpoint replace_newlines (eol s : string) : string :=
  match s with
  | EmptyString => EmptyString
  | String c rest =>
      if Ascii.eqb c "010" then eol ++ replace_newlines eol rest
      else String c (replace_newlines eol rest)
  end.

Definition newline : string := String "010" EmptyString.
Definition crlf : string := String "013" newline.

Definition positionOf (docText documentEol searchText : string) : string + nat :=
  match indexOf searchText "^" with
  | None => inl ("Couldn't find a ^ in search text (" ++ searchText ++ ")")
  | Some caretOffset =>
      match indexOf docText (replace_newlines documentEol (remove_first_caret searchText)) with
      | None => inl ("Couldn't find string " ++ remove_first_caret searchText ++
                     " in the document to get position of")
      | Some matchedTextIndex => inr (matchedTextIndex + caretOffset)
      end
  end.

Fixpoint count_newlines (s : string) : nat :=
  match s with
  | EmptyString => 0
  | String c rest => (if Ascii.eqb c "010" then 1 else 0) + count_newlines rest
  end.

(** ** [rangeOf]

    [rangeOf(searchText, inside)] takes the first and the last ["|"] of
    [searchText], looks for [searchText] without any ["|"] (newlines widened
    to the document's end-of-line) from the start of [inside], drops a match
    past the end of [inside], and builds a [vs.Range] from the two offsets.
    [inside] is given by its two offsets ([doc.offsetAt]).  Offsets are
    returned as numbers; [doc.positionAt] clamps a negative offset to 0,
    which is what the truncated subtraction of [nat] gives. *)

(** [s.lastIndexOf(p)], counting from [i]. *)
Fixpoint lastIndexOf_from (i : nat) (s p : string) : option nat :=
  match s with
  | EmptyString => if String.prefix p s then Some i else None
  | String _ rest =>
      match lastIndexOf_from (S i) rest p with
      | Some k => Some k
      | None => if String.prefix p s then Some i else None
      end
  end.

Definition lastIndexOf (s p : string) : option nat := lastIndexOf_from 0 s p.

(** The search of [s.indexOf(p, from)] from position [i] on. *)
Fixpoint indexOf_from_at (i from : nat) (s p : string) : option nat :=
  if Nat.leb from i && String.prefix p s then Some i
  else match s with
       | EmptyString => None
       | String _ rest => indexOf_from_at (S i) from rest p
       end.

(** [s.indexOf(p, from)]: [from] is clamped to the length of [s]. *)
Definition indexOf_at (s p : string) (from : nat) : option nat :=
  indexOf_from_at 0 (Nat.min from (String.length s)) s p.

(** [s.replace(/\|/g, "")] *)
Fixpoint remove_bars (s : string) : string :=
  match s with
  | EmptyString => EmptyString
  | String c rest => if Ascii.eqb c "|" then remove_bars rest else String c (remove_bars rest)
  end.

(** [new vs.Range(start, end)] orders its two ends. *)
Definition vsRange (start end_ : nat) : nat * nat :=
  if Nat.leb start end_ then (start, end_) else (end_, start).

Definition rangeOf (docText documentEol searchText : string) (inside : option (nat * nat))
    : string + (nat * nat) :=
  match indexOf searchText "|" with
  | None => inl ("Couldn't find a | in search text (" ++ searchText ++ ")")
  | Some startOffset =>
      match lastIndexOf searchText "|" with
      | None => inl ("Couldn't find a second | in search text (" ++ searchText ++ ")")
      | Some endOffset =>
          let startSearchAt := match inside with Some (st, _) => st | None => 0 end in
          let found := indexOf_at docText (replace_newlines documentEol (remove_bars searchText))
                         startSearchAt in
          let matchedTextIndex :=
            match inside, found with
            | Some (_, endSearchAt), Some m => if Nat.ltb endSearchAt m then None else Some m
            | _, _ => found
            end in
          match matchedTextIndex with
          | None => inl ("Couldn't find string " ++ remove_bars searchText ++
                         " in the document to get range of")
          | Some m => inr (vsRange (m + startOffset) (m + endOffset - 1))
          end
      end
  end.

Definition bar_free (s : string) : bool := all_chars (fun c => negb (Ascii.eqb c "|")) s.

(** ** [uncommentTestFile] and [ensureTestContent] *)

(** [text.replace(/\n\/\/ /mg, "\n")]: scanning left to right, each
    ["\n// "] becomes ["\n"] and the scan resumes after it. *)
Fixpoint uncomment (s : string) : string :=
  match s with
  | EmptyString => EmptyString
  | String c rest =>
      if Ascii.eqb c "010" then
        match rest with
        | String s1 (String s2 (String s3 rest')) =>
            if Ascii.eqb s1 "/" && Ascii.eqb s2 "/" && Ascii.eqb s3 " "
            then String c (uncomment rest')
            else String c (uncomment rest)
        | _ => String c (uncomment rest)
        end
      else String c (uncomment rest)
  end.

(** The content [uncommentTestFile] sets for a document with text [docText]. *)
Definition uncommentTestFile (docText : string) : string := uncomment docText.

(** The prefix ["\n// "] the test files use for commented-out lines. *)
Definition comment_newline : string := String "010" "// ".

(** [String.prototype.trim]: the white space and line terminators among
    the characters [\x00]..[\xff] are tab, line feed, vertical tab, form
    feed, carriage return, space and no-break space. *)
Definition js_whitespace (c : ascii) : bool :=
  match nat_of_ascii c with
  | 9 | 10 | 11 | 12 | 13 | 32 | 160 => true
  | _ => false
  end.

Fixpoint trimStart (s : string) : string :=
  match s with
  | EmptyString => EmptyString
  | String c rest => if js_whitespace c then trimStart rest else s
  end.

Fixpoint trimEnd (s : string) : string :=
  match s with
  | EmptyString => EmptyString
  | String c rest =>
      let t := trimEnd rest in
      if js_whitespace c && String.eqb t "" then EmptyString else String c t
  end.

Definition trim (s : string) : string := trimEnd (trimStart s).

(** [s.replace(/\r/g, "")] *)
Fixpoint remove_cr (s : string) : string :=
  match s with
  | EmptyString => EmptyString
  | String c rest => if Ascii.eqb c "013" then remove_cr rest else String c (remove_cr rest)
  end.

(** What [ensureTestContent] compares: the document text and the expected
    text, each without carriage returns and trimmed. *)
Definition normalize_content (s : string) : string := trim (remove_cr s).

Definition content_matches (docText expected : string) : bool :=
  String.eqb (normalize_content docText) (normalize_content expected).

(** ** [getExpectedResults] *)

(** [s.split("\n")] *)
Fixpoint split_lines (s : string) : list string :=
  match s with
  | EmptyString => [EmptyString]
  | String c rest =>
      if Ascii.eqb c "010" then EmptyString :: split_lines rest
      else match split_lines rest with
           | l :: ls => String c l :: ls
           | [] => [String c EmptyString]
           end
  end.

(** [lines.join("\n")] *)
Fixpoint join_lines (ls : list string) : string :=
  match ls with
  | [] => EmptyString
  | [l] => l
  | l :: rest => (l ++ newline ++ join_lines rest)%string
  end.

(** [l.substr(3)] *)
Definition substr3 (l : string) : string := substring 3 (String.length l - 3) l.

(** The lines kept: [l.startsWith("// ") && !l.startsWith("// #")]. *)
Definition expected_line (l : string) : bool :=
  String.prefix "// " l && negb (String.prefix "// #" l).

(** The processing of the text between the two markers. *)
Definition expectedResultsOf (results : string) : string :=
  join_lines (map substr3 (List.filter expected_line (map trim (split_lines results)))).

(** [getExpectedResults]: the markers are found with [positionOf] and the
    text of the range between them is processed. *)
Definition getExpectedResults (docText documentEol : string) : string + string :=
  match positionOf docText documentEol "// == EXPECTED RESULTS ==^",
        positionOf docText documentEol "^// == /EXPECTED RESULTS ==" with
  | inl e, _ => inl e
  | _, inl e => inl e
  | inr start, inr end_ =>
      let '(a, b) := vsRange start end_ in
      inr (expectedResultsOf (substring a (b - a) docText))
  end.

(** The lines an expected-results block can carry: not empty, without a
    line break or trailing white space, not starting with ["#"]. *)
Definition plain_expected_line (l : string) : bool :=
  negb (String.eqb l "") && String.eqb (trimEnd l) l &&
  negb (String.prefix "#" l) && Nat.eqb (count_newlines l) 0.

Definition comment_prefix : string := "// ".

(** An effect carries no change overlay with an empty list of edits. *)
Definition no_empty_change (ef : Effect) : Prop :=
  match ef with
  | AnalysisUpdateContent r =>
      forall k es, files r !! k = Some (ChangeContentOverlay es) -> es <> []
  | ShowWarningMessage _ => True
  end.

(** The callbacks a sequence of [defer] and [deferUntilLast] calls registers
    in each list. *)
Definition deferred_by (ops : list DeferOp) : list DeferredCallback :=
  flat_map (fun op => match op with OpDefer cb => [cb] | OpDeferUntilLast _ => [] end) ops.

Definition deferred_to_last_by (ops : list DeferOp) : list DeferredCallback :=
  flat_map (fun op => match op with OpDefer _ => [] | OpDeferUntilLast cb => [cb] end) ops.

(** Checks a property of a single character by going through all 256. *)
Ltac all_ascii c := destruct c as [[] [] [] [] [] [] [] []]; reflexivity.

(** ** Evaluation on small inputs *)

Example getExpectedResults_ex :
  getExpectedResults
    (String.concat newline
       ["void main() {}"; "// == EXPECTED RESULTS =="; "// foo"; "  // bar  ";
        "// # note"; "// == /EXPECTED RESULTS =="]) newline = inr (String.concat newline ["foo"; "bar"]).
Proof. reflexivity. Qed.

Example rangeOf_ex :
  rangeOf "var a = new Foo();" newline "new |Foo|()" None = inr (12, 15) /\
  rangeOf "var a = new Foo();" newline "new |Foo()" None = inr (11, 12) /\
  rangeOf "var a = new Foo();" newline "var |a|" (Some (4, 18)) =
    inl "Couldn't find string var a in the document to get range of".
Proof. repeat split. Qed.

Example positionOf_ex :
  positionOf "main() { print(1); }" newline "print(^1" = inr 15.
Proof. reflexivity. Qed.

Example filenameSafe_ex :
  filenameSafe "dart_signature_provider returns simple sig!!" =
  "dart_signature_provider_returns_simple_sig_".
Proof. reflexivity. Qed.

Example apply_batch_ex :
  apply_batch "hello world" [(0, 5, "bye"); (6, 5, "all")] = "bye all".
Proof. reflexivity. Qed.

Example scenario_ex :
  overlays (run newHandler
    [(envAll, DidOpen (docD "a"));
     (envAll, DidChange (mkChangeEvent (docD "ab") [mkChange 0 1 "ab"]));
     (envAll, DidClose (docD "ab"))]).2
  = [ {[ "file:///D.dart" := AddContentOverlay "a" ]};
      {[ "file:///D.dart" := ChangeContentOverlay [mkSourceEdit "" 1 0 "ab"] ]};
      {[ "file:///D.dart" := RemoveContentOverlay ]} ].
Proof. reflexivity. Qed.

Example tracker_ex :
  let '(t1, tok) := nextAnalysis (tracker_run initialTracker [Notify AnalysisStarted]) in
  (bool_decide (tok ∈ (resolved (tracker_run t1 [Notify AnalysisFinished]))),
   bool_decide (tok ∈ (resolved (tracker_run t1
      [Notify AnalysisFinished; Notify AnalysisStarted; Notify AnalysisFinished]))))
  = (false, true).
Proof. reflexivity. Qed.

(** ** Basic facts about the handler *)

Lemma singleton_files (k : string) (v : ContentOverlay) :
  <[k := v]> (∅ : gmap string ContentOverlay) = {[k := v]}.
Proof. apply insert_empty. Qed.

Lemma run_cons h env ev rest :
  run h ((env, ev) :: rest) =
  ((run (handle env h ev).1 rest).1,
   app (handle env h ev).2 (run (handle env h ev).1 rest).2).
Proof.
  simpl. destruct (handle env h ev) as [h1 out1]. simpl.
  destruct (run h1 rest) as [h2 out2]. reflexivity.
Qed.

Lemma overlays_app (o1 o2 : list Effect) :
  overlays (app o1 o2) = app (overlays o1) (overlays o2).
Proof.
  induction o1 as [|[m|r] o1 IH]; simpl; rewrite ?IH; reflexivity.
Qed.

Lemma count_warnings_app p (o1 o2 : list Effect) :
  count_warnings p (app o1 o2) = count_warnings p o1 + count_warnings p o2.
Proof.
  unfold count_warnings. induction o1 as [|ef o1 IH]; simpl; [reflexivity|].
  destruct ef; [case_bool_decide|]; simpl; rewrite ?IH; reflexivity.
Qed.

Lemma convertChange_fields (d : TextDocument) (cs : list TextDocumentContentChangeEvent) :
  Forall2 (fun (s : SourceEdit) (c : TextDocumentContentChangeEvent) =>
             offset s = rangeOffset c /\ length s = rangeLength c /\
             replacement s = change_text c)
          (map (convertChange d) cs) cs.
Proof. induction cs as [|c cs IH]; constructor; simpl; auto. Qed.

(** The overlays of one change event, separated from the warning. *)
Lemma overlays_onDidChange env h e :
  overlays (onDidChangeTextDocument env h e).2 =
  if isAnalyzable env (document e) && negb (Nat.eqb (List.length (contentChanges e)) 0)
  then [ {[ fsPath env (uri (document e)) :=
             ChangeContentOverlay (map (convertChange (document e)) (contentChanges e)) ]} ]
  else [].
Proof.
  unfold onDidChangeTextDocument.
  destruct (isAnalyzable env (document e)); simpl; [|reflexivity].
  destruct (Nat.eqb _ 0); simpl; [reflexivity|].
  destruct (_ && _ && _); simpl; rewrite singleton_files; reflexivity.
Qed.

(** * Claims *)

(** C1. For an analyzable document [D], the events open(D, "a"),
    change(D, [{offset 0, length 1, replacement "ab"}]), close(D) produce
    exactly three overlay operations, in order: an add overlay with the full
    text "a", a change overlay whose only edit is offset 0, length 1,
    replacement "ab" (with the empty [id] that [convertChange] sets), and a
    remove overlay.  Moreover, opening any analyzable document sends an add
    overlay with its full current text, and closing one sends a remove
    overlay. *)
Theorem C1_open_change_close_scenario (env : Env) (h : FileChangeHandler)
    (u : Uri) (lang t1 : string) :
  isAnalyzable env (mkTextDocument u lang "a") = true ->
  isAnalyzable env (mkTextDocument u lang t1) = true ->
  overlays (run h
    [(env, DidOpen (mkTextDocument u lang "a"));
     (env, DidChange (mkChangeEvent (mkTextDocument u lang t1) [mkChange 0 1 "ab"]));
     (env, DidClose (mkTextDocument u lang t1))]).2
  = [ {[ fsPath env u := AddContentOverlay "a" ]};
      {[ fsPath env u := ChangeContentOverlay [mkSourceEdit "" 1 0 "ab"] ]};
      {[ fsPath env u := RemoveContentOverlay ]} ]
  /\ (forall h' d, isAnalyzable env d = true ->
        onDidOpenTextDocument env h' d =
        (h', [AnalysisUpdateContent (mkUpdateContent
                {[ fsPath env (uri d) := AddContentOverlay (getText d) ]})]))
  /\ (forall h' d, isAnalyzable env d = true ->
        onDidCloseTextDocument env h' d =
        (h', [AnalysisUpdateContent (mkUpdateContent
                {[ fsPath env (uri d) := RemoveContentOverlay ]})])).
Proof.
  intros Ha Hb. split; [|split].
  - rewrite !run_cons. simpl.
    rewrite overlays_app. simpl. rewrite overlays_app.
    unfold onDidOpenTextDocument, onDidCloseTextDocument.
    rewrite overlays_onDidChange. simpl. rewrite Ha, Hb. simpl.
    rewrite !singleton_files. reflexivity.
  - intros h' d Hd. unfold onDidOpenTextDocument. rewrite Hd. simpl.
    rewrite singleton_files. reflexivity.
  - intros h' d Hd. unfold onDidCloseTextDocument. rewrite Hd. simpl.
    rewrite singleton_files. reflexivity.
Qed.

Lemma C1_witness :
  isAnalyzable envAll (mkTextDocument "file:///D.dart" "dart" "a") = true /\
  isAnalyzable envAll (mkTextDocument "file:///D.dart" "dart" "ab") = true /\
  overlays (run newHandler
    [(envAll, DidOpen (mkTextDocument "file:///D.dart" "dart" "a"));
     (envAll, DidChange (mkChangeEvent (mkTextDocument "file:///D.dart" "dart" "ab")
                           [mkChange 0 1 "ab"]));
     (envAll, DidClose (mkTextDocument "file:///D.dart" "dart" "ab"))]).2
  = [ {[ "file:///D.dart" := AddContentOverlay "a" ]};
      {[ "file:///D.dart" := ChangeContentOverlay [mkSourceEdit "" 1 0 "ab"] ]};
      {[ "file:///D.dart" := RemoveContentOverlay ]} ].
Proof.
  split; [reflexivity|]. split; [reflexivity|].
  exact (proj1 (C1_open_change_close_scenario envAll newHandler "file:///D.dart" "dart" "ab"
                  eq_refl eq_refl)).
Defined.

(** C3. A change event with a non-empty list of change records on an
    analyzable document emits exactly one overlay operation, a change overlay
    for the document's path, whose edits correspond one to one and in order
    to the change records, each edit's offset, length and replacement being
    the record's rangeOffset, rangeLength and text. *)
Theorem C3_change_edits_follow_records (env : Env) (h : FileChangeHandler)
    (e : TextDocumentChangeEvent) :
  isAnalyzable env (document e) = true ->
  contentChanges e <> [] ->
  exists edits,
    overlays (onDidChangeTextDocument env h e).2 =
      [ {[ fsPath env (uri (document e)) := ChangeContentOverlay edits ]} ] /\
    Forall2 (fun (s : SourceEdit) (c : TextDocumentContentChangeEvent) =>
               offset s = rangeOffset c /\ length s = rangeLength c /\
               replacement s = change_text c)
            edits (contentChanges e).
Proof.
  intros Ha Hne. rewrite overlays_onDidChange, Ha.
  destruct (contentChanges e) as [|c cs] eqn:Hc; [congruence|]. simpl.
  eexists. split; [reflexivity|].
  exact (convertChange_fields (document e) (c :: cs)).
Qed.

Lemma C3_witness :
  exists edits,
    overlays (onDidChangeTextDocument envAll newHandler
                (mkChangeEvent (docD "xbc") [mkChange 0 1 "x"; mkChange 2 0 ""])).2 =
      [ {[ "file:///D.dart" := ChangeContentOverlay edits ]} ] /\
    Forall2 (fun (s : SourceEdit) (c : TextDocumentContentChangeEvent) =>
               offset s = rangeOffset c /\ length s = rangeLength c /\
               replacement s = change_text c)
            edits [mkChange 0 1 "x"; mkChange 2 0 ""].
Proof.
  apply (C3_change_edits_follow_records envAll newHandler
           (mkChangeEvent (docD "xbc") [mkChange 0 1 "x"; mkChange 2 0 ""]));
    simpl; [reflexivity | discriminate].
Defined.

(** C4 (counterexample). A change to an analyzable document that was never
    opened, sent to a fresh handler, produces only a change overlay: no add
    overlay is emitted. *)
Lemma C4_change_without_open_emits_no_add :
  overlays (run newHandler
    [(envAll, DidChange (mkChangeEvent (docD "ab") [mkChange 0 1 "ab"]))]).2
  = [ {[ "file:///D.dart" := ChangeContentOverlay [mkSourceEdit "" 1 0 "ab"] ]} ]
  /\ ~ (exists c, In ({[ "file:///D.dart" := AddContentOverlay c ]}
                        : gmap string ContentOverlay)
                     (overlays (run newHandler
                        [(envAll, DidChange (mkChangeEvent (docD "ab") [mkChange 0 1 "ab"]))]).2)).
Proof.
  match goal with |- ?a = ?b /\ _ => assert (Hov : a = b) by reflexivity end.
  split; [exact Hov|]. rewrite Hov.
  intros [c [Heq|[]]].
  assert (Hl : ({[ "file:///D.dart" := ChangeContentOverlay [mkSourceEdit "" 1 0 "ab"] ]}
                 : gmap string ContentOverlay) !! "file:///D.dart"
               = ({[ "file:///D.dart" := AddContentOverlay c ]} : gmap string ContentOverlay)
                 !! "file:///D.dart") by (rewrite Heq; reflexivity).
  rewrite !lookup_singleton_eq in Hl. discriminate.
Qed.

(** C4 (amended). The handler keeps no record of which documents are open:
    whatever its state, a change event emits no add overlay; for an
    analyzable document with a non-empty list of change records it emits
    exactly the change overlay for the document's path, and otherwise
    nothing. *)
Theorem C4_change_emits_only_change_overlay (env : Env) (h : FileChangeHandler)
    (e : TextDocumentChangeEvent) :
  overlays (handle env h (DidChange e)).2 =
  if isAnalyzable env (document e) && negb (Nat.eqb (List.length (contentChanges e)) 0)
  then [ {[ fsPath env (uri (document e)) :=
             ChangeContentOverlay (map (convertChange (document e)) (contentChanges e)) ]} ]
  else [].
Proof. apply overlays_onDidChange. Qed.

(** C5 (counterexample). Closing an analyzable document that was never
    opened, on a fresh handler, emits a remove overlay: it is not a no-op. *)
Lemma C5_close_without_open_emits_remove :
  overlays (run newHandler [(envAll, DidClose (docD "a"))]).2
  = [ {[ "file:///D.dart" := RemoveContentOverlay ]} ]
  /\ overlays (run newHandler [(envAll, DidClose (docD "a"))]).2 <> [].
Proof. split; [reflexivity | discriminate]. Qed.

(** C5 (amended). Closing a document never fails and leaves the handler
    state unchanged; whether or not the document was opened, it emits one
    remove overlay for the document's path when the document is analyzable,
    and nothing otherwise. *)
Theorem C5_close_emits_remove_if_analyzable (env : Env) (h : FileChangeHandler)
    (d : TextDocument) :
  handle env h (DidClose d) =
  (h, if isAnalyzable env d
      then [AnalysisUpdateContent (mkUpdateContent
              {[ fsPath env (uri d) := RemoveContentOverlay ]})]
      else []).
Proof.
  simpl. unfold onDidCloseTextDocument.
  destruct (isAnalyzable env d); simpl; rewrite ?singleton_files; reflexivity.
Qed.

(** C6. A change event whose list of change records is empty sends nothing
    to the analyzer (and shows no warning), and leaves the handler state
    unchanged. *)
Theorem C6_empty_change_is_noop (env : Env) (h : FileChangeHandler)
    (e : TextDocumentChangeEvent) :
  contentChanges e = [] ->
  onDidChangeTextDocument env h e = (h, []).
Proof.
  intros He. unfold onDidChangeTextDocument. rewrite He.
  destruct (isAnalyzable env (document e)); reflexivity.
Qed.

Lemma C6_witness :
  contentChanges (mkChangeEvent (docD "a") []) = [] /\
  onDidChangeTextDocument envAll newHandler (mkChangeEvent (docD "a") []) = (newHandler, []).
Proof.
  split; [reflexivity|].
  apply (C6_empty_change_is_noop envAll newHandler (mkChangeEvent (docD "a") [])).
  reflexivity.
Defined.

(** C7. An open, change or close event on a non-analyzable document emits
    nothing at all (no overlay, no warning), cannot fail, and leaves the
    handler state unchanged. *)
Theorem C7_non_analyzable_ignored (env : Env) (h : FileChangeHandler)
    (ev : EditorEvent) :
  isAnalyzable env (event_document ev) = false ->
  handle env h ev = (h, []).
Proof.
  intros Hn. destruct ev as [td|e|td]; simpl in *;
    [unfold onDidOpenTextDocument | unfold onDidChangeTextDocument
    | unfold onDidCloseTextDocument]; rewrite Hn; reflexivity.
Qed.

Lemma C7_witness :
  isAnalyzable envNone (event_document (DidChange (mkChangeEvent (docD "ab") [mkChange 0 1 "ab"])))
    = false /\
  handle envNone newHandler (DidChange (mkChangeEvent (docD "ab") [mkChange 0 1 "ab"]))
    = (newHandler, []).
Proof.
  split; [reflexivity|].
  apply C7_non_analyzable_ignored. reflexivity.
Defined.

(** ** Helper facts for the warning set and the request shape *)

Lemma string_app_cancel (pre a b : string) : (pre ++ a)%string = (pre ++ b)%string -> a = b.
Proof. induction pre as [|ch pre IH]; simpl; [auto|]. intros H. injection H. auto. Qed.

Lemma warningMessage_inj (p q : string) : warningMessage q = warningMessage p -> q = p.
Proof. apply string_app_cancel. Qed.

Lemma count_warnings_update p r :
  count_warnings p [AnalysisUpdateContent r] = 0.
Proof. reflexivity. Qed.

Lemma count_warnings_show p m rest :
  count_warnings p (ShowWarningMessage m :: rest) =
  (if bool_decide (m = warningMessage p) then 1 else 0) + count_warnings p rest.
Proof. unfold count_warnings. cbn [List.filter]. case_bool_decide; reflexivity. Qed.

Lemma count_warnings_nil p : count_warnings p [] = 0.
Proof. reflexivity. Qed.

Lemma handle_warnings env h ev p :
  filesWarnedAbout h ⊆ filesWarnedAbout (handle env h ev).1 /\
  count_warnings p (handle env h ev).2
    <= (if bool_decide (p ∈ filesWarnedAbout h) then 0 else 1) /\
  (1 <= count_warnings p (handle env h ev).2 -> p ∈ filesWarnedAbout (handle env h ev).1).
Proof.
  assert (Hnone : count_warnings p [] <= (if bool_decide (p ∈ filesWarnedAbout h) then 0 else 1)
                  /\ (1 <= count_warnings p [] -> p ∈ filesWarnedAbout h))
    by (rewrite count_warnings_nil; split; [case_bool_decide|]; lia).
  assert (Hupd : forall r,
            count_warnings p [AnalysisUpdateContent r]
              <= (if bool_decide (p ∈ filesWarnedAbout h) then 0 else 1)
            /\ (1 <= count_warnings p [AnalysisUpdateContent r] -> p ∈ filesWarnedAbout h))
    by (intros r; rewrite count_warnings_update; split; [case_bool_decide|]; lia).
  destruct ev as [td|e|td]; cbn [handle].
  - unfold onDidOpenTextDocument.
    destruct (isAnalyzable env td); cbn [negb fst snd]; split; auto.
  - unfold onDidChangeTextDocument.
    destruct (isAnalyzable env (document e)); cbn [negb fst snd]; [|split; auto].
    destruct (Nat.eqb _ 0); cbn [negb fst snd]; [split; auto|].
    set (q := fsPath env (uri (document e))).
    set (files := <[q := _]> ∅).
    destruct (warnWhenEditingFilesOutsideWorkspace env
              && negb (bool_decide (q ∈ filesWarnedAbout h))
              && negb (isWithinWorkspace env q)) eqn:Hc; cbn [fst snd app].
    + apply andb_prop in Hc as [Hc _]. apply andb_prop in Hc as [_ Hc].
      apply negb_true_iff, bool_decide_eq_false in Hc.
      rewrite count_warnings_show, count_warnings_update.
      split; [set_solver|].
      destruct (decide (warningMessage q = warningMessage p)) as [Hm|Hm].
      * rewrite (bool_decide_eq_true_2 _ Hm).
        apply warningMessage_inj in Hm. rewrite <- Hm.
        rewrite bool_decide_eq_false_2 by exact Hc.
        split; [lia|]. intros _. set_solver.
      * rewrite (bool_decide_eq_false_2 _ Hm).
        split; [case_bool_decide; lia | lia].
    + split; [set_solver|]. apply Hupd.
  - unfold onDidCloseTextDocument.
    destruct (isAnalyzable env td); cbn [negb fst snd]; split; auto.
Qed.

Lemma run_warnings h evs p :
  filesWarnedAbout h ⊆ filesWarnedAbout (run h evs).1 /\
  count_warnings p (run h evs).2
    <= (if bool_decide (p ∈ filesWarnedAbout h) then 0 else 1) /\
  (1 <= count_warnings p (run h evs).2 -> p ∈ filesWarnedAbout (run h evs).1).
Proof.
  revert h. induction evs as [|[env ev] rest IH]; intros h.
  - simpl. rewrite count_warnings_nil. split; [set_solver|].
    split; [case_bool_decide|]; lia.
  - rewrite run_cons. cbn [fst snd]. rewrite count_warnings_app.
    destruct (handle_warnings env h ev p) as (Hsub1 & Hc1 & Hin1).
    destruct (IH (handle env h ev).1) as (Hsub2 & Hc2 & Hin2).
    split; [set_solver|].
    destruct (bool_decide (p ∈ filesWarnedAbout (handle env h ev).1)) eqn:Hb.
    + apply bool_decide_eq_true in Hb. split; [|intros _; set_solver].
      destruct (count_warnings p (handle env h ev).2) eqn:Hn; [lia|].
      assert (Hp : p ∈ filesWarnedAbout h \/ p ∉ filesWarnedAbout h)
        by (destruct (decide (p ∈ filesWarnedAbout h)); auto).
      destruct Hp as [Hp|Hp];
        [rewrite (bool_decide_eq_true_2 _ Hp) in Hc1 |
         rewrite (bool_decide_eq_false_2 _ Hp) in Hc1;
         rewrite (bool_decide_eq_false_2 _ Hp)]; lia.
    + apply bool_decide_eq_false in Hb.
      assert (Hn : count_warnings p (handle env h ev).2 = 0)
        by (destruct (count_warnings p (handle env h ev).2); [reflexivity|];
            exfalso; apply Hb, Hin1; lia).
      rewrite Hn. assert (Hp : p ∉ filesWarnedAbout h) by set_solver.
      rewrite (bool_decide_eq_false_2 _ Hp).
      split; [lia|]. intros H. apply Hin2. lia.
Qed.

(** Each request a single event produces is a one-entry files map keyed by
    the path of that event's document. *)
Lemma handle_requests_single env h ev r :
  In (AnalysisUpdateContent r) (handle env h ev).2 ->
  exists ov, files r = {[ fsPath env (uri (event_document ev)) := ov ]}.
Proof.
  destruct ev as [td|e|td]; cbn [handle event_document].
  - unfold onDidOpenTextDocument. destruct (isAnalyzable env td); cbn [negb fst snd];
      [|intros []]. intros [Hr|[]]. injection Hr as <-. cbn [files].
    rewrite singleton_files. eauto.
  - unfold onDidChangeTextDocument.
    destruct (isAnalyzable env (document e)); cbn [negb fst snd]; [|intros []].
    destruct (Nat.eqb _ 0); cbn [negb fst snd]; [intros []|].
    destruct (_ && _ && _); cbn [fst snd app];
      [intros [Hr|[Hr|[]]]; [discriminate|] | intros [Hr|[]]];
      injection Hr as <-; cbn [files]; rewrite singleton_files; eauto.
  - unfold onDidCloseTextDocument. destruct (isAnalyzable env td); cbn [negb fst snd];
      [|intros []]. intros [Hr|[]]. injection Hr as <-. cbn [files].
    rewrite singleton_files. eauto.
Qed.

Lemma run_app h evs1 evs2 :
  run h (app evs1 evs2) =
  ((run (run h evs1).1 evs2).1, app (run h evs1).2 (run (run h evs1).1 evs2).2).
Proof.
  revert h. induction evs1 as [|[env ev] rest IH]; intros h.
  - simpl. destruct (run h evs2); reflexivity.
  - cbn [app]. rewrite !run_cons, IH. cbn [fst snd]. rewrite app_assoc. reflexivity.
Qed.

(** C9. The out-of-workspace warning for a path [p] is shown at most once
    in a session: a fresh handler shows it at most once whatever the events;
    and once some prefix of the events has shown it, [p] is in
    [filesWarnedAbout] and no later event of the session shows it again. *)
Theorem C9_warning_at_most_once (p : string) :
  (forall evs, count_warnings p (run newHandler evs).2 <= 1) /\
  (forall h evs1 evs2,
     1 <= count_warnings p (run h evs1).2 ->
     p ∈ filesWarnedAbout (run h evs1).1 /\
     count_warnings p (run h (app evs1 evs2)).2 = count_warnings p (run h evs1).2).
Proof.
  split.
  - intros evs. destruct (run_warnings newHandler evs p) as (_ & Hc & _).
    revert Hc. case_bool_decide; lia.
  - intros h evs1 evs2 H1.
    destruct (run_warnings h evs1 p) as (_ & _ & Hin).
    specialize (Hin H1). split; [exact Hin|].
    rewrite run_app. cbn [snd]. rewrite count_warnings_app.
    destruct (run_warnings (run h evs1).1 evs2 p) as (_ & Hc & _).
    rewrite (bool_decide_eq_true_2 _ Hin) in Hc. lia.
Qed.

Lemma C9_witness :
  1 <= count_warnings "file:///D.dart"
         (run newHandler [(envOutside, DidChange (mkChangeEvent (docD "ab") [mkChange 0 1 "ab"]))]).2 /\
  count_warnings "file:///D.dart"
    (run newHandler
       (app [(envOutside, DidChange (mkChangeEvent (docD "ab") [mkChange 0 1 "ab"]))]
            [(envOutside, DidChange (mkChangeEvent (docD "abc") [mkChange 2 0 "c"]));
             (envOutside, DidClose (docD "abc"));
             (envOutside, DidChange (mkChangeEvent (docD "c") [mkChange 0 2 ""]))])).2
  = count_warnings "file:///D.dart"
      (run newHandler [(envOutside, DidChange (mkChangeEvent (docD "ab") [mkChange 0 1 "ab"]))]).2.
Proof.
  assert (H1 : 1 <= count_warnings "file:///D.dart"
         (run newHandler [(envOutside, DidChange (mkChangeEvent (docD "ab") [mkChange 0 1 "ab"]))]).2)
    by (vm_compute; lia).
  split; [exact H1|].
  exact (proj2 (proj2 (C9_warning_at_most_once "file:///D.dart") newHandler _ _ H1)).
Defined.

(** C10. Every [analysisUpdateContent] request the handler sends during a
    session comes from one event of the session and carries a files map
    with exactly one entry, keyed by the path of that event's document. *)
Theorem C10_one_file_per_request (h : FileChangeHandler)
    (evs : list (Env * EditorEvent)) (r : AnalysisUpdateContentRequest) :
  In (AnalysisUpdateContent r) (run h evs).2 ->
  exists evs1 env ev evs2 ov,
    evs = app evs1 ((env, ev) :: evs2) /\
    In (AnalysisUpdateContent r) (handle env (run h evs1).1 ev).2 /\
    files r = {[ fsPath env (uri (event_document ev)) := ov ]} /\
    size (files r) = 1.
Proof.
  revert h. induction evs as [|[env ev] rest IH]; intros h Hin; [destruct Hin|].
  rewrite run_cons in Hin. cbn [snd] in Hin. apply in_app_or in Hin as [Hin|Hin].
  - destruct (handle_requests_single env h ev r Hin) as [ov Hov].
    exists [], env, ev, rest, ov. split; [reflexivity|]. split; [exact Hin|].
    split; [exact Hov|]. rewrite Hov. apply map_size_singleton.
  - destruct (IH _ Hin) as (evs1 & env' & ev' & evs2 & ov & Heq & Hin' & Hov & Hsz).
    exists ((env, ev) :: evs1), env', ev', evs2, ov.
    split; [rewrite Heq; reflexivity|].
    split; [rewrite run_cons; exact Hin'|]. auto.
Qed.

Lemma C10_witness :
  In (AnalysisUpdateContent (mkUpdateContent {[ "file:///D.dart" := RemoveContentOverlay ]}))
     (run newHandler [(envAll, DidOpen (docD "a")); (envAll, DidClose (docD "a"))]).2 /\
  exists evs1 env ev evs2 ov,
    [(envAll, DidOpen (docD "a")); (envAll, DidClose (docD "a"))] = app evs1 ((env, ev) :: evs2) /\
    In (AnalysisUpdateContent (mkUpdateContent {[ "file:///D.dart" := RemoveContentOverlay ]}))
       (handle env (run newHandler evs1).1 ev).2 /\
    files (mkUpdateContent {[ "file:///D.dart" := RemoveContentOverlay ]})
      = {[ fsPath env (uri (event_document ev)) := ov ]} /\
    size (files (mkUpdateContent {[ "file:///D.dart" := RemoveContentOverlay ]})) = 1.
Proof.
  assert (Hin : In (AnalysisUpdateContent (mkUpdateContent {[ "file:///D.dart" := RemoveContentOverlay ]}))
     (run newHandler [(envAll, DidOpen (docD "a")); (envAll, DidClose (docD "a"))]).2)
    by (simpl; right; left; reflexivity).
  split; [exact Hin|].
  exact (C10_one_file_per_request newHandler _ _ Hin).
Defined.

Lemma apply_batch_nil (s : string) : apply_batch s [] = s.
Proof. reflexivity. Qed.

Lemma edits_of_convertChange (d : TextDocument) (cs : list TextDocumentContentChangeEvent) :
  map edit_of_source (map (convertChange d) cs) = map edit_of_change cs.
Proof. rewrite map_map. reflexivity. Qed.

Lemma replay_app p t (m1 m2 : list (gmap string ContentOverlay)) :
  replay p t (app m1 m2) = replay p (replay p t m1) m2.
Proof. unfold replay. apply fold_left_app. Qed.

(** C2. For every sequence of change events on one analyzable document
    (all its events resolve to the same path [p]), if the editor produced
    each event's text by applying the event's change records to the
    previous text (each batch against its pre-batch content), then
    replaying on the pre-edit text, in emission order, the change overlays
    the handler sends for [p] (each batch against the text the previous
    ones produced) yields exactly the post-edit text. *)
Theorem C2_replay_reproduces_text (h : FileChangeHandler) (t0 p : string)
    (evs : list (Env * TextDocumentChangeEvent)) :
  Forall (fun ee => isAnalyzable ee.1 (document ee.2) = true /\
                    fsPath ee.1 (uri (document ee.2)) = p) evs ->
  editor_consistent t0 (map snd evs) ->
  replay p t0 (overlays (run h (change_events evs)).2) = final_text t0 (map snd evs).
Proof.
  revert h t0. induction evs as [|[env e] rest IH]; intros h t0 Hall Hcons.
  - reflexivity.
  - apply Forall_cons in Hall as [[Ha Hp] Hrest].
    destruct Hcons as [He Hcons]. cbn [snd fst] in *.
    unfold change_events. cbn [map fst snd]. rewrite run_cons. cbn [snd handle].
    rewrite overlays_app, replay_app, overlays_onDidChange, Ha. cbn [andb final_text map].
    fold (change_events rest).
    destruct (contentChanges e) as [|c cs] eqn:Hc; cbn [List.length Nat.eqb negb].
    + rewrite apply_batch_nil in He. cbn [replay fold_left]. rewrite <- He.
      apply IH; assumption.
    + unfold replay at 2. cbn [fold_left]. unfold replay_overlay.
      rewrite Hp, lookup_singleton_eq, edits_of_convertChange, <- He.
      apply IH; assumption.
Qed.

Lemma C2_witness :
  replay "file:///D.dart" "a"
    (overlays (run newHandler (change_events
       [(envAll, mkChangeEvent (docD "ab") [mkChange 0 1 "ab"]);
        (envAll, mkChangeEvent (docD "ab") []);
        (envAll, mkChangeEvent (docD "xab!") [mkChange 0 0 "x"; mkChange 2 0 "!"])])).2)
  = final_text "a" (map snd
       [(envAll, mkChangeEvent (docD "ab") [mkChange 0 1 "ab"]);
        (envAll, mkChangeEvent (docD "ab") []);
        (envAll, mkChangeEvent (docD "xab!") [mkChange 0 0 "x"; mkChange 2 0 "!"])]).
Proof.
  apply C2_replay_reproduces_text.
  - repeat constructor.
  - vm_compute. repeat split.
Defined.

(** ** Analysis-round tracker facts *)

Lemma tracker_step_fresh t op : tokens_fresh t -> tokens_fresh (tracker_step t op).
Proof.
  intros [Hr Hw]. destruct op as [|[|]]; cbn [tracker_step nextAnalysis onNotification fst];
    split; cbn [resolved waiters next_token].
  - intros n Hn. specialize (Hr n Hn). lia.
  - intros w Hin. apply in_app_or in Hin as [Hin|[<-|[]]]; [specialize (Hw w Hin)|cbn]; lia.
  - exact Hr.
  - intros w Hin. apply in_map_iff in Hin as (w' & <- & Hin). apply (Hw w' Hin).
  - intros n Hn. apply in_app_or in Hn as [Hn|Hn]; [auto|].
    apply in_map_iff in Hn as (w & <- & Hin). apply filter_In in Hin as [Hin _]. auto.
  - intros w Hin. apply filter_In in Hin as [Hin _]. auto.
Qed.

Lemma tracker_run_fresh ops : forall t, tokens_fresh t -> tokens_fresh (tracker_run t ops).
Proof.
  induction ops as [|op ops IH]; intros t Ht; [exact Ht|].
  apply IH, tracker_step_fresh, Ht.
Qed.

Lemma initialTracker_fresh : tokens_fresh initialTracker.
Proof. split; intros ? []. Qed.

(** Only a finished notification settles tokens. *)
Lemma resolved_needs_finish tok ops : forall t,
  ~ In tok (resolved t) -> In tok (resolved (tracker_run t ops)) ->
  exists o1 o2, ops = app o1 (Notify AnalysisFinished :: o2).
Proof.
  induction ops as [|op ops IH]; intros t Hn Hin; [contradiction|].
  destruct op as [|[|]].
  - destruct (IH (tracker_step t CallNextAnalysis) Hn Hin) as (o1 & o2 & ->).
    exists (CallNextAnalysis :: o1), o2. reflexivity.
  - destruct (IH (tracker_step t (Notify AnalysisStarted)) Hn Hin) as (o1 & o2 & ->).
    exists (Notify AnalysisStarted :: o1), o2. reflexivity.
  - exists [], ops. reflexivity.
Qed.

(** A token that has not seen a start is settled only after a start and a
    later finish. *)
Lemma resolved_needs_cycle tok ops : forall t,
  ~ In tok (resolved t) -> ~ In (tok, true) (waiters t) ->
  In tok (resolved (tracker_run t ops)) ->
  exists o1 o2 o3,
    ops = app o1 (Notify AnalysisStarted :: app o2 (Notify AnalysisFinished :: o3)).
Proof.
  induction ops as [|op ops IH]; intros t Hn Hw Hin; [contradiction|].
  destruct op as [|[|]].
  - destruct (IH ((nextAnalysis t).1) Hn) as (o1 & o2 & o3 & ->); [|exact Hin|].
    + cbn [nextAnalysis fst waiters]. intros Hin'.
      apply in_app_or in Hin' as [Hin'|[Heq|[]]]; [auto | discriminate].
    + exists (CallNextAnalysis :: o1), o2, o3. reflexivity.
  - destruct (resolved_needs_finish tok ops (onNotification t AnalysisStarted) Hn Hin)
      as (o2 & o3 & ->).
    exists [], o2, o3. reflexivity.
  - destruct (IH (onNotification t AnalysisFinished)) as (o1 & o2 & o3 & ->); [| |exact Hin|].
    + cbn [onNotification resolved]. intros Hin'.
      apply in_app_or in Hin' as [Hin'|Hin']; [auto|].
      apply in_map_iff in Hin' as ([n b] & Heq & Hf). cbn in Heq. subst n.
      apply filter_In in Hf as [Hf Hb]. cbn in Hb. subst b. auto.
    + cbn [onNotification waiters]. intros Hf. apply filter_In in Hf as [_ Hb]. discriminate.
    + exists (Notify AnalysisFinished :: o1), o2, o3. reflexivity.
Qed.

(** C8 (spec-modelled). Whatever happened before, a token handed out by
    [nextAnalysis] is settled after a sequence [ops] of later operations
    only if [ops] contains an "analysis started" notification followed by
    an "analysis finished" notification: it never resolves before a full
    start-then-finish cycle that begins after the call. *)
Theorem C8_next_analysis_needs_full_cycle (history ops : list TrackerOp) :
  In (nextAnalysis (tracker_run initialTracker history)).2
     (resolved (tracker_run (nextAnalysis (tracker_run initialTracker history)).1 ops)) ->
  exists o1 o2 o3,
    ops = app o1 (Notify AnalysisStarted :: app o2 (Notify AnalysisFinished :: o3)).
Proof.
  intros Hin.
  destruct (tracker_run_fresh history initialTracker initialTracker_fresh) as [Hr Hw].
  set (t := tracker_run initialTracker history) in *.
  apply (resolved_needs_cycle (nextAnalysis t).2 ops ((nextAnalysis t).1)); [| |exact Hin].
  - cbn [nextAnalysis fst snd resolved]. intros Hn. specialize (Hr _ Hn). lia.
  - cbn [nextAnalysis fst snd waiters]. intros Hn.
    apply in_app_or in Hn as [Hn|[Heq|[]]]; [|discriminate].
    specialize (Hw _ Hn). cbn in Hw. lia.
Qed.

Lemma C8_witness :
  In (nextAnalysis (tracker_run initialTracker [Notify AnalysisStarted])).2
     (resolved (tracker_run (nextAnalysis (tracker_run initialTracker [Notify AnalysisStarted])).1
        [Notify AnalysisFinished; Notify AnalysisStarted; Notify AnalysisFinished])) /\
  exists o1 o2 o3,
    [Notify AnalysisFinished; Notify AnalysisStarted; Notify AnalysisFinished]
    = app o1 (Notify AnalysisStarted :: app o2 (Notify AnalysisFinished :: o3)).
Proof.
  assert (Hin : In (nextAnalysis (tracker_run initialTracker [Notify AnalysisStarted])).2
     (resolved (tracker_run (nextAnalysis (tracker_run initialTracker [Notify AnalysisStarted])).1
        [Notify AnalysisFinished; Notify AnalysisStarted; Notify AnalysisFinished])))
    by (vm_compute; left; reflexivity).
  split; [exact Hin|].
  exact (C8_next_analysis_needs_full_cycle _ _ Hin).
Defined.

(** * Further properties of the handler *)

(** A property of every effect of each single event holds of every effect
    of a session. *)
Lemma run_effects_forall (P : Effect -> Prop) :
  (forall env h ev ef, In ef (handle env h ev).2 -> P ef) ->
  forall h evs ef, In ef (run h evs).2 -> P ef.
Proof.
  intros Hstep h evs. revert h.
  induction evs as [|[env ev] rest IH]; intros h ef Hin; [destruct Hin|].
  rewrite run_cons in Hin. cbn [snd] in Hin.
  apply in_app_or in Hin as [Hin|Hin]; [eapply Hstep; eauto | eapply IH; eauto].
Qed.

(** X1. Constructing the handler with the documents already open in the
    editor leaves [filesWarnedAbout] empty, shows no warning, and sends, in
    the editor's order, one add overlay with the full text for each
    analyzable open document, and nothing for the others. *)
Theorem X1_constructor_opens_existing (env : Env) (textDocuments : list TextDocument) :
  (new_FileChangeHandler env textDocuments).1 = newHandler /\
  count_all_warnings (new_FileChangeHandler env textDocuments).2 = 0 /\
  overlays (new_FileChangeHandler env textDocuments).2 =
  map (fun td => {[ fsPath env (uri td) := AddContentOverlay (getText td) ]})
      (List.filter (isAnalyzable env) textDocuments).
Proof.
  unfold new_FileChangeHandler. generalize newHandler as h.
  induction textDocuments as [|td tds IH]; intros h; [repeat split|].
  cbn [map]. rewrite run_cons. cbn [fst snd handle].
  unfold onDidOpenTextDocument. cbn [List.filter].
  destruct (isAnalyzable env td) eqn:Ha; cbn [negb fst snd app].
  - destruct (IH h) as (H1 & H2 & H3). split; [exact H1|]. split; [exact H2|].
    cbn [overlays files map]. rewrite H3, singleton_files. reflexivity.
  - exact (IH h).
Qed.

(** X2. Only a change event can add a path to [filesWarnedAbout]: every path
    in the set after a session was there before, or is the path of a
    non-empty change to an analyzable document made while the warning was
    enabled and the path was outside the workspace. *)
Theorem X2_warned_paths_come_from_changes (h : FileChangeHandler)
    (evs : list (Env * EditorEvent)) (p : string) :
  p ∈ filesWarnedAbout (run h evs).1 ->
  p ∈ filesWarnedAbout h \/
  exists env e, In (env, DidChange e) evs /\
    isAnalyzable env (document e) = true /\ contentChanges e <> [] /\
    fsPath env (uri (document e)) = p /\
    warnWhenEditingFilesOutsideWorkspace env = true /\
    isWithinWorkspace env p = false.
Proof.
  revert h. induction evs as [|[env ev] rest IH]; intros h Hin; [left; exact Hin|].
  rewrite run_cons in Hin. cbn [fst] in Hin.
  destruct (IH _ Hin) as [Hh|(env' & e' & Hi & Hrest)];
    [|right; exists env', e'; split; [right; exact Hi | exact Hrest]].
  destruct ev as [td|e|td]; cbn [handle] in Hh.
  - unfold onDidOpenTextDocument in Hh. destruct (isAnalyzable env td); left; exact Hh.
  - unfold onDidChangeTextDocument in Hh.
    destruct (isAnalyzable env (document e)) eqn:Ha; cbn [negb fst] in Hh; [|left; exact Hh].
    destruct (Nat.eqb (List.length (contentChanges e)) 0) eqn:Hz; cbn [fst] in Hh;
      [left; exact Hh|].
    destruct (warnWhenEditingFilesOutsideWorkspace env
              && negb (bool_decide (fsPath env (uri (document e)) ∈ filesWarnedAbout h))
              && negb (isWithinWorkspace env (fsPath env (uri (document e))))) eqn:Hc;
      cbn [fst filesWarnedAbout] in Hh; [|left; exact Hh].
    apply elem_of_union in Hh as [Hq|Hh]; [|left; exact Hh].
    apply elem_of_singleton in Hq. subst p.
    apply andb_prop in Hc as [Hc Hw]. apply andb_prop in Hc as [Hf _].
    right. exists env, e. split; [left; reflexivity|]. split; [exact Ha|].
    split; [intros Hn; rewrite Hn in Hz; discriminate|].
    split; [reflexivity|]. split; [exact Hf|]. apply negb_true_iff, Hw.
  - unfold onDidCloseTextDocument in Hh. destruct (isAnalyzable env td); left; exact Hh.
Qed.

Lemma X2_witness :
  "file:///D.dart" ∈ filesWarnedAbout
    (run newHandler [(envOutside, DidChange (mkChangeEvent (docD "ab") [mkChange 0 1 "ab"]))]).1 /\
  ("file:///D.dart" ∈ filesWarnedAbout newHandler \/
   exists env e, In (env, DidChange e)
       [(envOutside, DidChange (mkChangeEvent (docD "ab") [mkChange 0 1 "ab"]))] /\
     isAnalyzable env (document e) = true /\ contentChanges e <> [] /\
     fsPath env (uri (document e)) = "file:///D.dart" /\
     warnWhenEditingFilesOutsideWorkspace env = true /\
     isWithinWorkspace env "file:///D.dart" = false).
Proof.
  assert (Hin : "file:///D.dart" ∈ filesWarnedAbout
    (run newHandler [(envOutside, DidChange (mkChangeEvent (docD "ab") [mkChange 0 1 "ab"]))]).1).
  { apply (bool_decide_unpack _). vm_compute. reflexivity. }
  split; [exact Hin |].
  exact (X2_warned_paths_come_from_changes newHandler _ "file:///D.dart" Hin).
Defined.

Lemma count_all_warnings_app (o1 o2 : list Effect) :
  count_all_warnings (app o1 o2) = count_all_warnings o1 + count_all_warnings o2.
Proof.
  unfold count_all_warnings. induction o1 as [|[m|r] o1 IH]; cbn [app List.filter List.length];
    rewrite ?IH; reflexivity.
Qed.

Lemma handle_warned_size env h ev :
  size (filesWarnedAbout (handle env h ev).1) =
  size (filesWarnedAbout h) + count_all_warnings (handle env h ev).2.
Proof.
  destruct ev as [td|e|td]; cbn [handle].
  - unfold onDidOpenTextDocument. destruct (isAnalyzable env td); cbn; lia.
  - unfold onDidChangeTextDocument.
    destruct (isAnalyzable env (document e)); cbn [negb fst snd]; [|cbn; lia].
    destruct (Nat.eqb _ 0); cbn [negb fst snd]; [cbn; lia|].
    set (q := fsPath env (uri (document e))).
    destruct (warnWhenEditingFilesOutsideWorkspace env
              && negb (bool_decide (q ∈ filesWarnedAbout h))
              && negb (isWithinWorkspace env q)) eqn:Hc; cbn [fst snd app filesWarnedAbout].
    + apply andb_prop in Hc as [Hc _]. apply andb_prop in Hc as [_ Hc].
      apply negb_true_iff, bool_decide_eq_false in Hc.
      rewrite size_union by set_solver. rewrite size_singleton. cbn. lia.
    + cbn. lia.
  - unfold onDidCloseTextDocument. destruct (isAnalyzable env td); cbn; lia.
Qed.

(** X3. Each warning shown adds exactly one new path to [filesWarnedAbout]:
    over any session, the number of warnings shown equals the growth of the
    set. *)
Theorem X3_warnings_count_set_growth (h : FileChangeHandler) (evs : list (Env * EditorEvent)) :
  size (filesWarnedAbout (run h evs).1) =
  size (filesWarnedAbout h) + count_all_warnings (run h evs).2.
Proof.
  revert h. induction evs as [|[env ev] rest IH]; intros h; [cbn; lia|].
  rewrite run_cons. cbn [fst snd]. rewrite count_all_warnings_app, IH, handle_warned_size. lia.
Qed.

Lemma handle_no_empty_change env h ev ef :
  In ef (handle env h ev).2 -> no_empty_change ef.
Proof.
  destruct ev as [td|e|td]; cbn [handle].
  - unfold onDidOpenTextDocument. destruct (isAnalyzable env td); cbn [negb fst snd];
      [|intros []]. intros [<-|[]]. cbn. rewrite singleton_files.
    intros k es Hk. apply lookup_singleton_Some in Hk as [_ Hk]. discriminate.
  - unfold onDidChangeTextDocument.
    destruct (isAnalyzable env (document e)); cbn [negb fst snd]; [|intros []].
    destruct (Nat.eqb (List.length (contentChanges e)) 0) eqn:Hz; cbn [negb fst snd]; [intros []|].
    destruct (_ && _ && _); cbn [fst snd app];
      [intros [<-|[<-|[]]]; [exact I|] | intros [<-|[]]];
      cbn; rewrite singleton_files; intros k es Hk;
      apply lookup_singleton_Some in Hk as [_ Hk]; injection Hk as <-;
      intros Hn; apply map_eq_nil in Hn; rewrite Hn in Hz; discriminate.
  - unfold onDidCloseTextDocument. destruct (isAnalyzable env td); cbn [negb fst snd];
      [|intros []]. intros [<-|[]]. cbn. rewrite singleton_files.
    intros k es Hk. apply lookup_singleton_Some in Hk as [_ Hk]. discriminate.
Qed.

(** X4. The handler never sends a change overlay with an empty list of
    edits: in every request of a session, every change overlay has at least
    one edit. *)
Theorem X4_no_empty_change_overlay (h : FileChangeHandler) (evs : list (Env * EditorEvent))
    (r : AnalysisUpdateContentRequest) (k : string) (es : list SourceEdit) :
  In (AnalysisUpdateContent r) (run h evs).2 ->
  files r !! k = Some (ChangeContentOverlay es) ->
  es <> [].
Proof.
  intros Hin. exact (run_effects_forall no_empty_change handle_no_empty_change h evs _ Hin k es).
Qed.

Lemma X4_witness :
  In (AnalysisUpdateContent (mkUpdateContent
        {[ "file:///D.dart" := ChangeContentOverlay [mkSourceEdit "" 1 0 "ab"] ]}))
     (run newHandler [(envAll, DidChange (mkChangeEvent (docD "ab") [mkChange 0 1 "ab"]))]).2 /\
  files (mkUpdateContent {[ "file:///D.dart" := ChangeContentOverlay [mkSourceEdit "" 1 0 "ab"] ]})
    !! "file:///D.dart" = Some (ChangeContentOverlay [mkSourceEdit "" 1 0 "ab"]) /\
  [mkSourceEdit "" 1 0 "ab"] <> [].
Proof.
  assert (Hin : In (AnalysisUpdateContent (mkUpdateContent
        {[ "file:///D.dart" := ChangeContentOverlay [mkSourceEdit "" 1 0 "ab"] ]}))
     (run newHandler [(envAll, DidChange (mkChangeEvent (docD "ab") [mkChange 0 1 "ab"]))]).2)
    by (right; left; reflexivity).
  assert (Hk : files (mkUpdateContent {[ "file:///D.dart" := ChangeContentOverlay [mkSourceEdit "" 1 0 "ab"] ]})
    !! "file:///D.dart" = Some (ChangeContentOverlay [mkSourceEdit "" 1 0 "ab"]))
    by (cbn; apply lookup_singleton_eq).
  split; [exact Hin|]. split; [exact Hk|].
  exact (X4_no_empty_change_overlay _ _ _ _ _ Hin Hk).
Defined.

Lemma replay_change_events (h : FileChangeHandler) (t0 p : string)
    (evs : list (Env * TextDocumentChangeEvent)) :
  Forall (fun ee => isAnalyzable ee.1 (document ee.2) = true /\
                    fsPath ee.1 (uri (document ee.2)) = p) evs ->
  editor_consistent t0 (map snd evs) ->
  replay p t0 (overlays (run h (change_events evs)).2) = final_text t0 (map snd evs).
Proof.
  revert h t0. induction evs as [|[env e] rest IH]; intros h t0 Hall Hcons; [reflexivity|].
  apply Forall_cons in Hall as [[Ha Hp] Hrest].
  destruct Hcons as [He Hcons]. cbn [snd fst] in *.
  unfold change_events. cbn [map fst snd]. rewrite run_cons. cbn [snd handle].
  rewrite overlays_app, replay_app, overlays_onDidChange, Ha. cbn [andb final_text map].
  fold (change_events rest).
  destruct (contentChanges e) as [|c cs]; cbn [List.length Nat.eqb negb].
  - rewrite apply_batch_nil in He. cbn [replay fold_left]. rewrite <- He. auto.
  - unfold replay at 2. cbn [fold_left]. unfold replay_overlay.
    rewrite Hp, lookup_singleton_eq, edits_of_convertChange, <- He. auto.
Qed.

(** X5. Opening an analyzable document and then changing it: whatever text
    the server held for the path before, replaying the overlays the handler
    sends (the add overlay, then the change overlays) yields the editor's
    final text, provided the editor produced each event's text from its
    change records. *)
Theorem X5_open_then_changes_replay (h : FileChangeHandler) (t_server p : string)
    (env0 : Env) (d0 : TextDocument) (evs : list (Env * TextDocumentChangeEvent)) :
  isAnalyzable env0 d0 = true ->
  fsPath env0 (uri d0) = p ->
  Forall (fun ee => isAnalyzable ee.1 (document ee.2) = true /\
                    fsPath ee.1 (uri (document ee.2)) = p) evs ->
  editor_consistent (getText d0) (map snd evs) ->
  replay p t_server (overlays (run h ((env0, DidOpen d0) :: change_events evs)).2)
  = final_text (getText d0) (map snd evs).
Proof.
  intros Ha Hp Hall Hcons. rewrite run_cons. cbn [snd fst handle].
  unfold onDidOpenTextDocument. rewrite Ha. cbn [negb fst snd app overlays files].
  unfold replay. cbn [fold_left]. unfold replay_overlay at 2.
  rewrite singleton_files, Hp, lookup_singleton_eq.
  apply replay_change_events; assumption.
Qed.

Lemma X5_witness :
  replay "file:///D.dart" "stale server text"
    (overlays (run newHandler ((envAll, DidOpen (docD "a")) :: change_events
       [(envAll, mkChangeEvent (docD "ab") [mkChange 0 1 "ab"]);
        (envAll, mkChangeEvent (docD "xab!") [mkChange 0 0 "x"; mkChange 2 0 "!"])])).2)
  = final_text "a" (map snd
       [(envAll, mkChangeEvent (docD "ab") [mkChange 0 1 "ab"]);
        (envAll, mkChangeEvent (docD "xab!") [mkChange 0 0 "x"; mkChange 2 0 "!"])]).
Proof.
  apply (X5_open_then_changes_replay newHandler "stale server text" "file:///D.dart"
           envAll (docD "a")).
  - reflexivity.
  - reflexivity.
  - repeat constructor.
  - vm_compute. repeat split.
Defined.

(** * Properties of the test helpers *)

(** ** [filenameSafe] *)

Lemma alnum_not_underscore (c : ascii) :
  implb (in_a_z0_9_i c) (negb (Ascii.eqb c "_")) = true.
Proof. all_ascii c. Qed.

Lemma lower_filename_char (c : ascii) :
  implb (in_a_z0_9_i c || Ascii.eqb c "_") (filename_char (toLowerCase_char c)) = true.
Proof. all_ascii c. Qed.

Lemma lower_underscore (c : ascii) :
  Ascii.eqb (toLowerCase_char c) "_" = Ascii.eqb c "_".
Proof. all_ascii c. Qed.

Lemma lower_filename_char_id (c : ascii) :
  implb (filename_char c) (Ascii.eqb (toLowerCase_char c) c) = true.
Proof. all_ascii c. Qed.

Lemma filename_char_alnum (c : ascii) :
  implb (filename_char c) (Bool.eqb (in_a_z0_9_i c) (negb (Ascii.eqb c "_"))) = true.
Proof. all_ascii c. Qed.

Lemma replace_runs_shape (s : string) : forall b,
  all_chars (fun c => in_a_z0_9_i c || Ascii.eqb c "_") (replace_nonalnum_runs b s) = true /\
  no_double_underscore (replace_nonalnum_runs b s) = true /\
  (b = true -> starts_with_underscore (replace_nonalnum_runs b s) = false).
Proof.
  induction s as [|c s IH]; intros b; [repeat split|].
  cbn [replace_nonalnum_runs].
  destruct (in_a_z0_9_i c) eqn:Ha.
  - pose proof (alnum_not_underscore c) as Hu. rewrite Ha in Hu. cbn in Hu.
    apply negb_true_iff in Hu.
    destruct (IH false) as (H1 & H2 & _). cbn [all_chars no_double_underscore starts_with_underscore].
    rewrite Ha, Hu, H1, H2. repeat split.
  - destruct b.
    + exact (IH true).
    + destruct (IH true) as (H1 & H2 & H3).
      cbn [all_chars no_double_underscore]. rewrite H1, H2, (H3 eq_refl).
      repeat split. discriminate.
Qed.

Lemma toLowerCase_shape (t : string) :
  all_chars (fun c => in_a_z0_9_i c || Ascii.eqb c "_") t = true ->
  all_chars filename_char (toLowerCase t) = true /\
  no_double_underscore (toLowerCase t) = no_double_underscore t.
Proof.
  induction t as [|c t IH]; [intros; split; reflexivity|].
  cbn [all_chars toLowerCase no_double_underscore]. intros Hc.
  apply andb_prop in Hc as [Hc Ht]. destruct (IH Ht) as [H1 H2].
  pose proof (lower_filename_char c) as Hl. rewrite Hc in Hl. cbn in Hl.
  rewrite Hl, H1, H2, lower_underscore. split; [reflexivity|].
  destruct t as [|d t]; [reflexivity|]. cbn [toLowerCase starts_with_underscore].
  rewrite lower_underscore. reflexivity.
Qed.

(** X6. [filenameSafe] only produces lowercase ASCII letters, digits and
    underscores. *)
Theorem X6_filenameSafe_charset (input : string) :
  all_chars filename_char (filenameSafe input) = true.
Proof.
  unfold filenameSafe. destruct (replace_runs_shape input false) as (H1 & _ & _).
  exact (proj1 (toLowerCase_shape _ H1)).
Qed.

(** X7. [filenameSafe] never produces two consecutive underscores: each
    run of other characters becomes a single underscore. *)
Theorem X7_filenameSafe_no_double_underscore (input : string) :
  no_double_underscore (filenameSafe input) = true.
Proof.
  unfold filenameSafe. destruct (replace_runs_shape input false) as (H1 & H2 & _).
  rewrite (proj2 (toLowerCase_shape _ H1)). exact H2.
Qed.

Lemma replace_runs_id (t : string) :
  all_chars filename_char t = true -> no_double_underscore t = true ->
  forall b, (b = true -> starts_with_underscore t = false) ->
  replace_nonalnum_runs b t = t.
Proof.
  induction t as [|c t IH]; intros Hc Hn b Hb; [reflexivity|].
  cbn [all_chars] in Hc. apply andb_prop in Hc as [Hc Ht].
  cbn [no_double_underscore] in Hn. apply andb_prop in Hn as [Hn1 Hn2].
  pose proof (filename_char_alnum c) as Ha. rewrite Hc in Ha. cbn [implb] in Ha.
  apply Bool.eqb_prop in Ha.
  cbn [replace_nonalnum_runs]. rewrite Ha.
  destruct (Ascii.eqb c "_") eqn:Hu; cbn [negb].
  - destruct b; [cbn in Hb; rewrite Hu in Hb; discriminate (Hb eq_refl)|].
    apply Ascii.eqb_eq in Hu. subst c.
    cbn [andb negb] in Hn1. f_equal. apply IH; auto.
    intros _. destruct (starts_with_underscore t); [discriminate|reflexivity].
  - f_equal. apply IH; auto. discriminate.
Qed.

Lemma toLowerCase_id (t : string) :
  all_chars filename_char t = true -> toLowerCase t = t.
Proof.
  induction t as [|c t IH]; [reflexivity|].
  cbn [all_chars toLowerCase]. intros Hc. apply andb_prop in Hc as [Hc Ht].
  pose proof (lower_filename_char_id c) as Hl. rewrite Hc in Hl. cbn in Hl.
  apply Ascii.eqb_eq in Hl. rewrite Hl, IH; auto.
Qed.

Lemma filenameSafe_shape (input : string) :
  all_chars filename_char (filenameSafe input) = true /\
  no_double_underscore (filenameSafe input) = true.
Proof.
  unfold filenameSafe. destruct (replace_runs_shape input false) as (H1 & H2 & _).
  destruct (toLowerCase_shape _ H1) as [H3 H4]. rewrite H4. auto.
Qed.

(** X8. [filenameSafe] is idempotent: a name it produced is left unchanged
    when passed through it again. *)
Theorem X8_filenameSafe_idempotent (input : string) :
  filenameSafe (filenameSafe input) = filenameSafe input.
Proof.
  destruct (filenameSafe_shape input) as [Hc Hn].
  unfold filenameSafe at 1.
  rewrite (replace_runs_id _ Hc Hn false (fun H => ltac:(discriminate H))).
  apply toLowerCase_id, Hc.
Qed.

Lemma replace_runs_length (s : string) : forall b,
  String.length (replace_nonalnum_runs b s) <= String.length s.
Proof.
  induction s as [|c s IH]; intros b; cbn; [lia|].
  destruct (in_a_z0_9_i c); [cbn; specialize (IH false); lia|].
  destruct b; [specialize (IH true); lia | cbn; specialize (IH true); lia].
Qed.

Lemma toLowerCase_length (s : string) : String.length (toLowerCase s) = String.length s.
Proof. induction s as [|c s IH]; cbn; congruence. Qed.

(** X9. [filenameSafe] never makes a name longer, and on a name made only
    of ASCII letters and digits it is exactly the lowercasing. *)
Theorem X9_filenameSafe_length_and_alnum (input : string) :
  String.length (filenameSafe input) <= String.length input /\
  (all_chars in_a_z0_9_i input = true -> filenameSafe input = toLowerCase input).
Proof.
  split.
  - unfold filenameSafe. rewrite toLowerCase_length. apply replace_runs_length.
  - intros Ha. unfold filenameSafe. f_equal. generalize false as b.
    induction input as [|c t IH]; intros b; [reflexivity|].
    cbn [all_chars] in Ha. apply andb_prop in Ha as [Hc Ht].
    cbn [replace_nonalnum_runs]. rewrite Hc. f_equal. apply IH, Ht.
Qed.

Lemma X9_witness :
  all_chars in_a_z0_9_i "AbC9" = true /\ filenameSafe "AbC9" = toLowerCase "AbC9".
Proof.
  assert (H : all_chars in_a_z0_9_i "AbC9" = true) by reflexivity.
  split; [exact H|]. exact (proj2 (X9_filenameSafe_length_and_alnum "AbC9") H).
Defined.

(** ** The polling loop of [waitFor] and [tryFor] *)

Lemma polls_nonpos (tr : Z) : (tr <= 0)%Z -> polls tr = 0.
Proof.
  intros H. unfold polls.
  assert (Hd : ((tr + 19) / 20 < 1)%Z) by (apply Z.div_lt_upper_bound; lia). lia.
Qed.

Lemma polls_pos (tr : Z) : (0 < tr)%Z -> polls tr = S (polls (tr - 20)).
Proof.
  intros H. unfold polls.
  replace (tr - 20 + 19)%Z with ((tr + 19) + (-1) * 20)%Z by lia.
  rewrite Z_div_plus_full by lia.
  assert (Hd : (1 <= (tr + 19) / 20)%Z) by (apply Z.div_le_lower_bound; lia). lia.
Qed.

Lemma poll_loop_all_fail (ok : nat -> bool) (n : nat) : forall fuel calls tr,
  polls tr = n -> Z.to_nat tr < fuel ->
  (forall i, i < n -> ok (calls + i) = false) ->
  poll_loop fuel ok calls tr = Some (false, calls + n).
Proof.
  induction n as [|n IH]; intros fuel calls tr Hp Hf Hok;
    (destruct fuel as [|fuel]; [lia|]); cbn [poll_loop].
  - destruct (Z.ltb_spec 0 tr) as [Hlt|Hge].
    + rewrite polls_pos in Hp by exact Hlt. discriminate.
    + rewrite Nat.add_0_r. reflexivity.
  - destruct (Z.ltb_spec 0 tr) as [Hlt|Hge]; [|rewrite polls_nonpos in Hp by exact Hge; discriminate].
    rewrite polls_pos in Hp by exact Hlt. injection Hp as Hp.
    pose proof (Hok 0 ltac:(lia)) as H0. rewrite Nat.add_0_r in H0. rewrite H0.
    rewrite (IH fuel (S calls) (tr - 20)%Z Hp ltac:(lia)).
    + f_equal. f_equal. lia.
    + intros i Hi. replace (S calls + i) with (calls + S i) by lia. apply Hok. lia.
Qed.

Lemma poll_loop_first_success (ok : nat -> bool) (k : nat) : forall fuel calls tr,
  k < polls tr -> Z.to_nat tr < fuel ->
  ok (calls + k) = true -> (forall i, i < k -> ok (calls + i) = false) ->
  poll_loop fuel ok calls tr = Some (true, calls + S k).
Proof.
  induction k as [|k IH]; intros fuel calls tr Hk Hf Hyes Hno;
    (destruct fuel as [|fuel]; [lia|]); cbn [poll_loop].
  - destruct (Z.ltb_spec 0 tr) as [Hlt|Hge]; [|rewrite polls_nonpos in Hk by exact Hge; lia].
    rewrite Nat.add_0_r in Hyes. rewrite Hyes. f_equal. f_equal. lia.
  - destruct (Z.ltb_spec 0 tr) as [Hlt|Hge]; [|rewrite polls_nonpos in Hk by exact Hge; lia].
    rewrite polls_pos in Hk by exact Hlt.
    pose proof (Hno 0 ltac:(lia)) as H0. rewrite Nat.add_0_r in H0. rewrite H0.
    rewrite (IH fuel (S calls) (tr - 20)%Z ltac:(lia) ltac:(lia)).
    + f_equal. f_equal. lia.
    + replace (S calls + k) with (calls + S k) by lia. exact Hyes.
    + intros i Hi. replace (S calls + i) with (calls + S i) by lia. apply Hno. lia.
Qed.





(** ** Deferred clean-up *)

Lemma register_deferred (ops : list DeferOp) : forall st,
  fold_left apply_defer_op ops st =
  mkDeferred (app (deferredItems st) (deferred_by ops))
             (app (deferredToLastItems st) (deferred_to_last_by ops)).
Proof.
  induction ops as [|[cb|cb] ops IH]; intros st; cbn [fold_left deferred_by deferred_to_last_by flat_map].
  - rewrite !app_nil_r. destruct st; reflexivity.
  - rewrite IH. cbn. rewrite <- !app_assoc. reflexivity.
  - rewrite IH. cbn. rewrite <- !app_assoc. reflexivity.
Qed.

Lemma run_deferred_loop_called ds state : forall fe,
  (run_deferred_loop ds state fe).1 = map cb_name ds.
Proof.
  induction ds as [|d ds IH]; intros fe; [reflexivity|].
  cbn [run_deferred_loop]. match goal with |- context [run_deferred_loop ds state ?x] =>
    specialize (IH x); destruct (run_deferred_loop ds state x) end.
  cbn in *. rewrite IH. reflexivity.
Qed.

Lemma run_deferred_loop_keeps_truthy ds state : forall fe,
  truthy fe = true -> (run_deferred_loop ds state fe).2 = fe.
Proof.
  induction ds as [|d ds IH]; intros fe Ht; [reflexivity|].
  cbn [run_deferred_loop]. rewrite Ht.
  assert (Hx : match cb_run d state with None => fe | Some _ => fe end = fe)
    by (destruct (cb_run d state); reflexivity).
  rewrite Hx. specialize (IH fe Ht). destruct (run_deferred_loop ds state fe). exact IH.
Qed.

Lemma run_deferred_loop_thrown ds state : forall fe,
  truthy fe = false ->
  (if truthy (run_deferred_loop ds state fe).2 then (run_deferred_loop ds state fe).2 else None)
  = option_map ErrorObject (first_error_object ds state).
Proof.
  induction ds as [|d ds IH]; intros fe Hf; cbn [run_deferred_loop first_error_object].
  - cbn. rewrite Hf. reflexivity.
  - rewrite Hf. destruct (cb_run d state) as [[m|]|].
    + pose proof (run_deferred_loop_keeps_truthy ds state (Some (ErrorObject m)) eq_refl) as H.
      destruct (run_deferred_loop ds state (Some (ErrorObject m))). cbn in *. subst. reflexivity.
    + specialize (IH (Some FalsyValue) eq_refl).
      destruct (run_deferred_loop ds state (Some FalsyValue)). exact IH.
    + specialize (IH fe Hf). destruct (run_deferred_loop ds state fe). exact IH.
Qed.



(** ** [positionOf] *)

Lemma string_app_cons (c : ascii) (a b : string) :
  (String c a ++ b)%string = String c (a ++ b).
Proof. reflexivity. Qed.

Lemma string_app_nil_l (s : string) : ("" ++ s)%string = s.
Proof. reflexivity. Qed.

Lemma string_app_assoc (a b c : string) : ((a ++ b) ++ c)%string = (a ++ (b ++ c))%string.
Proof. induction a as [|x a IH]; [reflexivity | now rewrite !string_app_cons, IH]. Qed.

Lemma string_app_length (a b : string) :
  String.length (a ++ b) = String.length a + String.length b.
Proof. induction a as [|x a IH]; [reflexivity | rewrite string_app_cons; simpl; now rewrite IH]. Qed.

Lemma prefix_empty (s : string) : String.prefix "" s = true.
Proof. destruct s; reflexivity. Qed.

Lemma string_prefix_app (p s : string) :
  String.prefix p s = true -> exists rest, s = (p ++ rest)%string.
Proof.
  revert s. induction p as [|a p IH]; intros s H.
  - now exists s.
  - destruct s as [|b s]; simpl in H; [discriminate |].
    destruct (ascii_dec a b) as [->|]; [| discriminate].
    destruct (IH s H) as [rest ->]. now exists rest.
Qed.

Lemma indexOf_from_found (i : nat) (s p : string) (k : nat) :
  indexOf_from i s p = Some k ->
  exists before after, s = (before ++ p ++ after)%string /\ k = i + String.length before.
Proof.
  revert i. induction s as [|c s IH]; intros i H; cbn [indexOf_from] in H.
  - destruct (String.prefix p "") eqn:Hp; [| discriminate].
    injection H as <-. destruct (string_prefix_app _ _ Hp) as [rest Hr].
    exists EmptyString, rest. split; [exact Hr | simpl; lia].
  - destruct (String.prefix p (String c s)) eqn:Hp.
    + injection H as <-. destruct (string_prefix_app _ _ Hp) as [rest Hr].
      exists EmptyString, rest. split; [exact Hr | simpl; lia].
    + destruct (IH (S i) H) as (before & after & -> & ->).
      exists (String c before), after. split; [reflexivity | simpl; lia].
Qed.

Lemma caret_split (i : nat) (s : string) (k : nat) :
  indexOf_from i s "^" = Some k ->
  exists pre post, s = (pre ++ String "^" post)%string /\ k = i + String.length pre /\
    all_chars (fun c => negb (Ascii.eqb c "^")) pre = true /\
    remove_first_caret s = (pre ++ post)%string.
Proof.
  revert i. induction s as [|c s IH]; intros i H; [discriminate |].
  cbn [indexOf_from String.prefix] in H.
  destruct (ascii_dec "^" c) as [<-|Hc]; simpl in H.
  - rewrite prefix_empty in H.
    injection H as <-. exists EmptyString, s.
    repeat split; simpl; try reflexivity; lia.
  - destruct (IH (S i) H) as (pre & post & -> & -> & Hpre & Hrm).
    assert (Ascii.eqb c "^" = false) as Hf.
    { apply Ascii.eqb_neq. congruence. }
    exists (String c pre), post.
    cbn [String.length all_chars remove_first_caret]. rewrite Hf, Hrm, Hpre.
    repeat split; try reflexivity; lia.
Qed.

Lemma replace_newlines_app (eol a b : string) :
  replace_newlines eol (a ++ b) = (replace_newlines eol a ++ replace_newlines eol b)%string.
Proof.
  induction a as [|c a IH]; [reflexivity |].
  rewrite string_app_cons. simpl. rewrite IH.
  destruct (Ascii.eqb c "010"); [now rewrite string_app_assoc | reflexivity].
Qed.

Lemma replace_newlines_lf (s : string) : replace_newlines newline s = s.
Proof.
  induction s as [|c s IH]; simpl; [reflexivity |].
  destruct (Ascii.eqb c "010") eqn:E; rewrite IH; [| reflexivity].
  apply Ascii.eqb_eq in E. now subst.
Qed.

Lemma replace_newlines_crlf_length (s : string) :
  String.length (replace_newlines crlf s) = String.length s + count_newlines s.
Proof.
  induction s as [|c s IH]; [reflexivity |].
  cbn [replace_newlines count_newlines].
  destruct (Ascii.eqb c "010"); [rewrite string_app_length |];
    cbn [String.length crlf newline]; rewrite IH; lia.
Qed.

Lemma positionOf_found (docText eol searchText : string) (off : nat) :
  positionOf docText eol searchText = inr off ->
  exists pre post before after,
    searchText = (pre ++ String "^" post)%string /\
    all_chars (fun c => negb (Ascii.eqb c "^")) pre = true /\
    docText = (before ++ replace_newlines eol pre ++ replace_newlines eol post ++ after)%string /\
    off = String.length before + String.length pre.
Proof.
  unfold positionOf, indexOf.
  destruct (indexOf_from 0 searchText "^") as [caret|] eqn:Hc; [| discriminate].
  destruct (indexOf_from 0 docText _) as [m|] eqn:Hm; [| discriminate].
  intros H. injection H as <-.
  destruct (caret_split _ _ _ Hc) as (pre & post & Hs & -> & Hpre & Hrm).
  destruct (indexOf_from_found _ _ _ _ Hm) as (before & after & Hd & ->).
  rewrite Hrm, replace_newlines_app, string_app_assoc in Hd.
  exists pre, post, before, after. refine (conj Hs (conj Hpre (conj Hd _))). lia.
Qed.

(** X14. With ["\n"] line endings, a successful [positionOf] returns the
    offset of the caret: the document holds the search text without its
    caret, and the offset falls right after the part before the (first)
    caret. *)
Theorem X14_positionOf_lf_offset (docText searchText : string) (off : nat) :
  positionOf docText newline searchText = inr off ->
  exists pre post before after,
    searchText = (pre ++ String "^" post)%string /\
    all_chars (fun c => negb (Ascii.eqb c "^")) pre = true /\
    docText = (before ++ pre ++ post ++ after)%string /\
    off = String.length before + String.length pre.
Proof.
  intros H. destruct (positionOf_found _ _ _ _ H) as (pre & post & before & after & H1 & H2 & H3 & H4).
  rewrite !replace_newlines_lf in H3. exists pre, post, before, after. auto.
Qed.

Lemma X14_witness :
  positionOf "main() { print(1); }" newline "print(^1" = inr 15 /\
  exists pre post before after,
    "print(^1" = (pre ++ String "^" post)%string /\
    all_chars (fun c => negb (Ascii.eqb c "^")) pre = true /\
    "main() { print(1); }" = (before ++ pre ++ post ++ after)%string /\
    15 = String.length before + String.length pre.
Proof.
  split; [reflexivity |].
  apply (X14_positionOf_lf_offset "main() { print(1); }" "print(^1" 15). reflexivity.
Defined.

(** X15. With ["\r\n"] line endings the search text is matched with its
    newlines widened, but the caret's index is taken in the unwidened text:
    the returned offset lies before the caret by the number of newlines
    that precede the caret in the search text. *)
Theorem X15_positionOf_crlf_shortfall (docText searchText : string) (off : nat) :
  positionOf docText crlf searchText = inr off ->
  exists pre post before after,
    searchText = (pre ++ String "^" post)%string /\
    docText = (before ++ replace_newlines crlf pre ++ replace_newlines crlf post ++ after)%string /\
    String.length (before ++ replace_newlines crlf pre) = off + count_newlines pre.
Proof.
  intros H. destruct (positionOf_found _ _ _ _ H) as (pre & post & before & after & H1 & _ & H3 & H4).
  exists pre, post, before, after. refine (conj H1 (conj H3 _)).
  rewrite string_app_length, replace_newlines_crlf_length. lia.
Qed.

Lemma X15_witness :
  positionOf ("xa" ++ crlf ++ "by") crlf ("a" ++ newline ++ "^b") = inr 3 /\
  exists pre post before after,
    ("a" ++ newline ++ "^b")%string = (pre ++ String "^" post)%string /\
    ("xa" ++ crlf ++ "by")%string =
      (before ++ replace_newlines crlf pre ++ replace_newlines crlf post ++ after)%string /\
    String.length (before ++ replace_newlines crlf pre) = 3 + count_newlines pre.
Proof.
  split; [reflexivity |].
  apply (X15_positionOf_crlf_shortfall ("xa" ++ crlf ++ "by") ("a" ++ newline ++ "^b") 3).
  reflexivity.
Defined.

(** ** [rangeOf] *)

Lemma bar_free_cons (c : ascii) (s : string) :
  bar_free (String c s) = true -> c <> "|"%char /\ bar_free s = true.
Proof.
  unfold bar_free. cbn [all_chars]. intros H. apply andb_prop in H as [Hc Hs].
  split; [| exact Hs]. intros ->. discriminate.
Qed.

Lemma indexOf_from_first_bar (i : nat) (a r : string) :
  bar_free a = true -> indexOf_from i (a ++ String "|" r) "|" = Some (i + String.length a).
Proof.
  revert i. induction a as [|c a IH]; intros i Ha.
  - rewrite string_app_nil_l. cbn. rewrite prefix_empty. f_equal. lia.
  - destruct (bar_free_cons _ _ Ha) as [Hc Ha'].
    rewrite string_app_cons. cbn [indexOf_from String.prefix].
    destruct (ascii_dec "|" c) as [E|_]; [congruence |].
    rewrite (IH (S i) Ha'). cbn [String.length]. f_equal. lia.
Qed.

Lemma lastIndexOf_from_bar_free (i : nat) (s : string) :
  bar_free s = true -> lastIndexOf_from i s "|" = None.
Proof.
  revert i. induction s as [|c s IH]; intros i Hs; [reflexivity |].
  destruct (bar_free_cons _ _ Hs) as [Hc Hs'].
  cbn [lastIndexOf_from]. rewrite (IH (S i) Hs'). cbn [String.prefix].
  destruct (ascii_dec "|" c) as [E|_]; [congruence | reflexivity].
Qed.

Lemma lastIndexOf_from_last_bar (i : nat) (a c : string) :
  bar_free c = true -> lastIndexOf_from i (a ++ String "|" c) "|" = Some (i + String.length a).
Proof.
  revert i. induction a as [|x a IH]; intros i Hc.
  - rewrite string_app_nil_l. cbn [lastIndexOf_from]. rewrite (lastIndexOf_from_bar_free _ _ Hc).
    cbn. rewrite prefix_empty. f_equal. lia.
  - rewrite string_app_cons. cbn [lastIndexOf_from]. rewrite (IH (S i) Hc).
    cbn [String.length]. f_equal. lia.
Qed.

Lemma lastIndexOf_from_none (i : nat) (s p : string) :
  lastIndexOf_from i s p = None -> indexOf_from i s p = None.
Proof.
  revert i. induction s as [|c s IH]; intros i H; cbn [lastIndexOf_from] in H;
    cbn [indexOf_from].
  - destruct (String.prefix p ""); [discriminate | reflexivity].
  - destruct (lastIndexOf_from (S i) s p) eqn:E; [discriminate |].
    destruct (String.prefix p (String c s)); [discriminate |]. exact (IH (S i) E).
Qed.

Lemma remove_bars_app (a b : string) :
  remove_bars (a ++ b) = (remove_bars a ++ remove_bars b)%string.
Proof.
  induction a as [|c a IH]; [reflexivity |].
  rewrite string_app_cons. cbn [remove_bars]. rewrite IH.
  destruct (Ascii.eqb c "|"); reflexivity.
Qed.

Lemma remove_bars_bar (s : string) : remove_bars (String "|" s) = remove_bars s.
Proof. reflexivity. Qed.

Lemma remove_bars_free (s : string) : bar_free s = true -> remove_bars s = s.
Proof.
  induction s as [|c s IH]; intros Hs; [reflexivity |].
  destruct (bar_free_cons _ _ Hs) as [Hc Hs']. cbn [remove_bars].
  destruct (Ascii.eqb c "|") eqn:E; [apply Ascii.eqb_eq in E; congruence |].
  now rewrite (IH Hs').
Qed.

Lemma indexOf_from_at_found (i from : nat) (s p : string) (m : nat) :
  indexOf_from_at i from s p = Some m ->
  exists before after, s = (before ++ p ++ after)%string /\
    m = i + String.length before /\ from <= m.
Proof.
  revert i. induction s as [|c s IH]; intros i H; cbn [indexOf_from_at] in H.
  - destruct (Nat.leb from i && String.prefix p "") eqn:Hp; [| discriminate].
    injection H as <-. apply andb_prop in Hp as [Hle Hp].
    destruct (string_prefix_app _ _ Hp) as [rest Hr]. apply Nat.leb_le in Hle.
    exists EmptyString, rest. split; [exact Hr | cbn; lia].
  - destruct (Nat.leb from i && String.prefix p (String c s)) eqn:Hp.
    + injection H as <-. apply andb_prop in Hp as [Hle Hp].
      destruct (string_prefix_app _ _ Hp) as [rest Hr]. apply Nat.leb_le in Hle.
      exists EmptyString, rest. split; [exact Hr | cbn; lia].
    + destruct (IH (S i) H) as (before & after & -> & -> & Hle).
      exists (String c before), after. split; [reflexivity | cbn [String.length]; lia].
Qed.

(** The match [m] that [rangeOf] keeps: the document holds the searched
    text at [m], inside the bounds that [inside] sets. *)
Lemma rangeOf_match (docText eol searchText : string) (inside : option (nat * nat))
    (rng : nat * nat) :
  rangeOf docText eol searchText inside = inr rng ->
  exists startOffset endOffset before after,
    indexOf searchText "|" = Some startOffset /\
    lastIndexOf searchText "|" = Some endOffset /\
    docText = (before ++ replace_newlines eol (remove_bars searchText) ++ after)%string /\
    rng = vsRange (String.length before + startOffset) (String.length before + endOffset - 1) /\
    match inside with
    | Some (st, en) => Nat.min st (String.length docText) <= String.length before <= en
    | None => True
    end.
Proof.
  unfold rangeOf.
  destruct (indexOf searchText "|") as [so|]; [| discriminate].
  destruct (lastIndexOf searchText "|") as [eo|]; [| discriminate].
  unfold indexOf_at.
  destruct inside as [[st en]|];
    destruct (indexOf_from_at 0 _ docText _) as [m|] eqn:Hm; try discriminate.
  - destruct (Nat.ltb en m) eqn:Hlt; [discriminate |]. intros H. injection H as <-.
    destruct (indexOf_from_at_found _ _ _ _ _ Hm) as (before & after & Hd & -> & Hle).
    apply Nat.ltb_ge in Hlt.
    exists so, eo, before, after. refine (conj eq_refl (conj eq_refl (conj Hd (conj eq_refl _)))).
    cbn in Hle |- *. lia.
  - intros H. injection H as <-.
    destruct (indexOf_from_at_found _ _ _ _ _ Hm) as (before & after & Hd & -> & _).
    exists so, eo, before, after. exact (conj eq_refl (conj eq_refl (conj Hd (conj eq_refl I)))).
Qed.

(** X16. With two bars and ["\n"] line endings, a successful [rangeOf]
    returns the range of the text between the bars where the bar-free
    search text occurs in the document, within the bounds of [inside]. *)
Theorem X16_rangeOf_between_bars (docText a b c : string) (inside : option (nat * nat))
    (rng : nat * nat) :
  bar_free a = true -> bar_free b = true -> bar_free c = true ->
  rangeOf docText newline (a ++ String "|" (b ++ String "|" c)) inside = inr rng ->
  exists before after,
    docText = (before ++ a ++ b ++ c ++ after)%string /\
    rng = (String.length before + String.length a,
           String.length before + String.length a + String.length b) /\
    match inside with
    | Some (st, en) => Nat.min st (String.length docText) <= String.length before <= en
    | None => True
    end.
Proof.
  intros Ha Hb Hc H.
  destruct (rangeOf_match _ _ _ _ _ H) as (so & eo & before & after & Hso & Heo & Hd & Hr & Hin).
  unfold indexOf in Hso. rewrite indexOf_from_first_bar in Hso by exact Ha.
  injection Hso as <-.
  unfold lastIndexOf in Heo.
  rewrite <- (string_app_cons "|" b (String "|" c)), <- string_app_assoc,
    lastIndexOf_from_last_bar in Heo by exact Hc.
  injection Heo as <-.
  rewrite replace_newlines_lf, remove_bars_app, (remove_bars_free a Ha), remove_bars_bar,
    remove_bars_app, (remove_bars_free b Hb), remove_bars_bar, (remove_bars_free c Hc) in Hd.
  exists before, after. split; [| split; [| exact Hin]].
  - rewrite Hd. now rewrite !string_app_assoc.
  - rewrite Hr. unfold vsRange. rewrite string_app_length. cbn [String.length].
    destruct (Nat.leb _ _) eqn:E; [f_equal; lia |].
    apply Nat.leb_gt in E. lia.
Qed.

Lemma X16_witness :
  rangeOf "var a = new Foo();" newline "new |Foo|()" None = inr (12, 15) /\
  exists before after,
    "var a = new Foo();" = (before ++ "new " ++ "Foo" ++ "()" ++ after)%string /\
    (12, 15) = (String.length before + String.length "new ",
                String.length before + String.length "new " + String.length "Foo") /\
    True.
Proof.
  split; [reflexivity |].
  apply (X16_rangeOf_between_bars "var a = new Foo();" "new " "Foo" "()" None (12, 15));
    reflexivity.
Defined.



(** X18. The assertion for a second bar never fails: whenever the search
    text has a first bar it has a last one, so [rangeOf] never reports a
    missing second bar. *)
Theorem X18_rangeOf_never_missing_second_bar (docText eol searchText : string)
    (inside : option (nat * nat)) :
  rangeOf docText eol searchText inside <>
    inl ("Couldn't find a second | in search text (" ++ searchText ++ ")").
Proof.
  unfold rangeOf.
  destruct (indexOf searchText "|") as [so|] eqn:Hso.
  - destruct (lastIndexOf searchText "|") as [eo|] eqn:Heo.
    + cbv zeta. destruct (match inside with Some (_, en) => _ | None => _ end) as [m|].
      * discriminate.
      * intros H. injection H. discriminate.
    + unfold lastIndexOf in Heo. unfold indexOf in Hso.
      rewrite (lastIndexOf_from_none _ _ _ Heo) in Hso. discriminate.
  - intros H. injection H. discriminate.
Qed.

(** ** [uncommentTestFile] and [ensureTestContent] *)

Lemma uncomment_cons (c : ascii) (s : string) :
  c <> "010"%char -> uncomment (String c s) = String c (uncomment s).
Proof.
  intros Hc. cbn [uncomment].
  destruct (Ascii.eqb c "010") eqn:E; [apply Ascii.eqb_eq in E; contradiction | reflexivity].
Qed.

(** X19. Uncommenting undoes the commenting of every line after the first:
    [uncommentTestFile] on a text whose line breaks are each followed by
    ["// "] gives back the text, and it never adds or removes a line. *)
Theorem X19_uncomment_round_trip (s : string) :
  uncommentTestFile (replace_newlines comment_newline s) = s /\
  count_newlines (uncommentTestFile s) = count_newlines s.
Proof.
  unfold uncommentTestFile. split.
  - induction s as [|c s IH]; [reflexivity |]. cbn [replace_newlines].
    destruct (Ascii.eqb c "010") eqn:E.
    + apply Ascii.eqb_eq in E. subst c.
      change (uncomment (comment_newline ++ ?t)) with (String "010" (uncomment t)).
      now rewrite IH.
    + rewrite uncomment_cons by (intros ->; discriminate). now rewrite IH.
  - assert (Hn : forall n t, String.length t <= n ->
              count_newlines (uncomment t) = count_newlines t).
    { induction n as [|n IH]; intros [|c rest] Hlen; try reflexivity;
        [cbn in Hlen; lia |].
      cbn in Hlen. cbn [uncomment].
      destruct (Ascii.eqb c "010") eqn:E.
      - destruct rest as [|s1 [|s2 [|s3 rest']]];
          try (cbn [count_newlines]; rewrite E, IH; [reflexivity | cbn in Hlen |- *; lia]).
        destruct (Ascii.eqb s1 "/" && Ascii.eqb s2 "/" && Ascii.eqb s3 " ") eqn:Hs.
        + apply andb_prop in Hs as [Hs Hs3]. apply andb_prop in Hs as [Hs1 Hs2].
          apply Ascii.eqb_eq in Hs1, Hs2, Hs3. subst.
          cbn [count_newlines]. rewrite E, IH by (cbn in Hlen |- *; lia). reflexivity.
        + cbn [count_newlines]. rewrite E, IH by (cbn in Hlen |- *; lia). reflexivity.
      - cbn [count_newlines]. rewrite E, IH by lia. reflexivity. }
    exact (Hn _ s (le_n _)).
Qed.

Lemma remove_cr_app (a b : string) :
  remove_cr (a ++ b) = (remove_cr a ++ remove_cr b)%string.
Proof.
  induction a as [|c a IH]; [reflexivity |].
  rewrite string_app_cons. cbn [remove_cr]. rewrite IH.
  destruct (Ascii.eqb c "013"); reflexivity.
Qed.

Lemma remove_cr_crlf (s : string) : remove_cr (replace_newlines crlf s) = remove_cr s.
Proof.
  induction s as [|c s IH]; [reflexivity |]. cbn [replace_newlines].
  destruct (Ascii.eqb c "010") eqn:E.
  - apply Ascii.eqb_eq in E. subst c. rewrite remove_cr_app, IH. reflexivity.
  - cbn [remove_cr]. now rewrite IH.
Qed.

Lemma trimEnd_snoc_ws (s : string) (c : ascii) :
  js_whitespace c = true -> trimEnd (s ++ String c "") = trimEnd s.
Proof.
  intros Hc. induction s as [|d s IH].
  - rewrite string_app_nil_l. cbn. now rewrite Hc.
  - rewrite string_app_cons. cbn [trimEnd]. now rewrite IH.
Qed.

Lemma trimStart_app (a b : string) :
  trimStart (a ++ b) =
    if String.eqb (trimStart a) "" then trimStart b else (trimStart a ++ b)%string.
Proof.
  induction a as [|c a IH]; [reflexivity |].
  rewrite string_app_cons. cbn [trimStart].
  destruct (js_whitespace c); [exact IH | reflexivity].
Qed.

Lemma trim_snoc_newline (s : string) : trim (s ++ newline) = trim s.
Proof.
  unfold trim. rewrite trimStart_app.
  destruct (String.eqb (trimStart s) "") eqn:E.
  - apply String.eqb_eq in E. rewrite E. reflexivity.
  - apply trimEnd_snoc_ws. reflexivity.
Qed.


(** ** [getExpectedResults] *)

Lemma split_lines_free (l : string) : count_newlines l = 0 -> split_lines l = [l].
Proof.
  induction l as [|c l IH]; intros H; [reflexivity |].
  cbn [count_newlines] in H. cbn [split_lines].
  destruct (Ascii.eqb c "010"); [cbn in H; lia |]. now rewrite IH.
Qed.

Lemma split_lines_app (l rest : string) :
  count_newlines l = 0 -> split_lines (l ++ newline ++ rest) = l :: split_lines rest.
Proof.
  induction l as [|c l IH]; intros H; [reflexivity |].
  cbn [count_newlines] in H. rewrite string_app_cons. cbn [split_lines].
  destruct (Ascii.eqb c "010"); [cbn in H; lia |]. now rewrite IH.
Qed.

Lemma split_join_lines (ls : list string) :
  ls <> [] -> Forall (fun l => count_newlines l = 0) ls -> split_lines (join_lines ls) = ls.
Proof.
  induction ls as [|l [|l2 rest] IH]; intros Hne Hf; [contradiction | |].
  - inversion Hf; subst. now apply split_lines_free.
  - inversion Hf; subst. change (join_lines (l :: l2 :: rest))
      with (l ++ newline ++ join_lines (l2 :: rest))%string.
    rewrite split_lines_app by assumption. rewrite IH; [reflexivity | discriminate | assumption].
Qed.

Lemma trimEnd_cons_nonempty (c : ascii) (s : string) :
  trimEnd s <> "" -> trimEnd (String c s) = String c (trimEnd s).
Proof.
  intros H. cbn [trimEnd].
  destruct (String.eqb (trimEnd s) "") eqn:E; [apply String.eqb_eq in E; contradiction |].
  now rewrite andb_false_r.
Qed.

Lemma substring_full (l : string) : substring 0 (String.length l) l = l.
Proof. induction l as [|c l IH]; [reflexivity | cbn; now rewrite IH]. Qed.

Lemma commented_line (l : string) :
  plain_expected_line l = true ->
  count_newlines (comment_prefix ++ l) = 0 /\
  trim (comment_prefix ++ l) = (comment_prefix ++ l)%string /\
  expected_line (comment_prefix ++ l) = true /\
  substr3 (comment_prefix ++ l) = l.
Proof.
  unfold plain_expected_line. intros H.
  apply andb_prop in H as [H Hnl]. apply andb_prop in H as [H Hhash].
  apply andb_prop in H as [Hne Htrim].
  apply negb_true_iff, String.eqb_neq in Hne. apply String.eqb_eq in Htrim.
  apply Nat.eqb_eq in Hnl.
  change (comment_prefix ++ l)%string with (String "/" (String "/" (String " " l))).
  repeat split.
  - exact Hnl.
  - unfold trim.
    change (trimStart (String "/" (String "/" (String " " l))))
      with (String "/" (String "/" (String " " l))).
    assert (H1 : trimEnd (String " " l) = String " " l).
    { rewrite trimEnd_cons_nonempty, Htrim; [reflexivity | rewrite Htrim; exact Hne]. }
    assert (H2 : trimEnd (String "/" (String " " l)) = String "/" (String " " l)).
    { rewrite trimEnd_cons_nonempty, H1; [reflexivity | rewrite H1; discriminate]. }
    rewrite trimEnd_cons_nonempty, H2; [reflexivity | rewrite H2; discriminate].
  - unfold expected_line. change (String.prefix "// #" (String "/" (String "/" (String " " l))))
      with (String.prefix "#" l).
    change (String.prefix "// " (String "/" (String "/" (String " " l))))
      with (String.prefix "" l).
    now rewrite prefix_empty, Hhash.
  - unfold substr3. cbn [String.length substring].
    replace (S (S (S (String.length l))) - 3) with (String.length l) by lia.
    apply substring_full.
Qed.

(** X21. An expected-results block written as one ["// "] comment line per
    expected line gives back exactly those lines, joined by ["\n"], when
    each line is non-empty, has no line break or trailing white space, and
    does not start with ["#"]. *)
Theorem X21_expected_results_round_trip (ls : list string) :
  forallb plain_expected_line ls = true ->
  expectedResultsOf (join_lines (map (String.append comment_prefix) ls)) = join_lines ls.
Proof.
  intros Hls. destruct ls as [|l0 ls0] eqn:Els; [reflexivity |]. rewrite <- Els in *.
  unfold expectedResultsOf.
  assert (Hall : Forall (fun l => plain_expected_line l = true) ls).
  { apply List.Forall_forall. exact (proj1 (List.forallb_forall _ _) Hls). }
  rewrite split_join_lines.
  - f_equal. clear Hls Els. induction Hall as [|l ls Hl _ IH]; [reflexivity |].
    destruct (commented_line l Hl) as (_ & Ht & He & Hs).
    cbn [map List.filter]. rewrite Ht, He. cbn [map]. now rewrite Hs, IH.
  - subst. discriminate.
  - clear Els Hls. induction Hall as [|l ls Hl _ IH]; constructor; [| exact IH].
    exact (proj1 (commented_line l Hl)).
Qed.

Lemma X21_witness :
  forallb plain_expected_line ["foo"; "  bar(1)"] = true /\
  expectedResultsOf (join_lines (map (String.append comment_prefix) ["foo"; "  bar(1)"])) =
    join_lines ["foo"; "  bar(1)"].
Proof.
  assert (H : forallb plain_expected_line ["foo"; "  bar(1)"] = true) by reflexivity.
  exact (conj H (X21_expected_results_round_trip _ H)).
Defined.
